(** * Adaptive NER classifier: keyword rules, ML fallback, category discovery

    A shallow embedding of [src/python/ner_classifier.py]
    (class [AdaptiveNERClassifier]) and the properties its design document
    states about it.

    Modelling choices, all taken from the Python source:
    - a Python [str] is a [string] whose characters are the code points
      below 256 (ASCII and the Latin-1 supplement); on that range
      [str.lower] is a per-character map and [str.split] cuts at the
      characters for which [str.isspace] holds;
    - a Python [float] is an exact rational ([Q]); the concrete values
      used below (1.5, 0.375, 0.75, ...) are dyadic and so exactly
      representable as floats;
    - an exception is a value of [exn]; a method that can raise returns
      [result];
    - the [categories] dict read from YAML is an association list in
      declaration order (the order [dict.items()] iterates in), with
      distinct keys;
    - the scikit-learn objects ([TfidfVectorizer], [RandomForestClassifier],
      [DBSCAN]) are an interface, [Sklearn], whose operations are the
      methods the source calls; the engine stores the objects in its own
      fields and every method threads the engine state explicitly. *)

From Stdlib Require Import Ascii String QArith Qabs.
From stdpp Require Import base list strings gmap pretty.

Local Open Scope string_scope.
Local Open Scope list_scope.

(** ** Exceptions and results *)

Inductive exn : Type :=
  | ZeroDivisionError
  | KeyError (key : string)
  | IndexError
  | AttributeError
  | ValueError (msg : string)
  | NotFittedError.

Inductive result (A : Type) : Type :=
  | Ok (a : A)
  | Raise (e : exn).
Arguments Ok {A} a.
Arguments Raise {A} e.

Definition bind {A B} (r : result A) (k : A -> result B) : result B :=
  match r with
  | Ok a => k a
  | Raise e => Raise e
  end.

Notation "x <- r ;; k" := (bind r (fun x => k))
  (at level 100, r at next level, right associativity).

Fixpoint mapM {A B} (f : A -> result B) (l : list A) : result (list B) :=
  match l with
  | [] => Ok []
  | a :: l' => b <- f a ;; bs <- mapM f l' ;; Ok (b :: bs)
  end.

(** ** Python string operations used by the matcher *)

Module Str.

Definition code (c : ascii) : N := N_of_ascii c.

(** [str.isspace] on one character: TAB..CR, FS..US, space, NEL, NBSP. *)
Definition isspace (c : ascii) : bool :=
  let n := code c in
  ((9 <=? n) && (n <=? 13) || (28 <=? n) && (n <=? 32)
   || (n =? 133) || (n =? 160))%N.

(** [str.lower] on one character: A..Z and the Latin-1 capitals
    (U+00C0..U+00DE without the multiplication sign U+00D7). *)
Definition lower_char (c : ascii) : ascii :=
  let n := code c in
  if ((65 <=? n) && (n <=? 90)
      || (192 <=? n) && (n <=? 222) && negb (n =? 215))%N
  then ascii_of_N (n + 32) else c.

Fixpoint lower (s : string) : string :=
  match s with
  | EmptyString => EmptyString
  | String c s' => String (lower_char c) (lower s')
  end.

(** [sub in s]: [sub] occurs in [s] as a contiguous substring. *)
Fixpoint contains (sub s : string) : bool :=
  String.prefix sub s ||
  match s with
  | EmptyString => false
  | String _ s' => contains sub s'
  end.

Definition starts_word (s : string) : bool :=
  match s with
  | EmptyString => false
  | String c _ => negb (isspace c)
  end.

(** [s.split()]: the maximal runs of non-whitespace characters. *)
Fixpoint split (s : string) : list string :=
  match s with
  | EmptyString => []
  | String c s' =>
      if isspace c then split s'
      else if starts_word s' then
        match split s' with
        | w :: ws => String c w :: ws
        | [] => [String c EmptyString]
        end
      else String c EmptyString :: split s'
  end.

Fixpoint has_nonspace (s : string) : bool :=
  match s with
  | EmptyString => false
  | String c s' => negb (isspace c) || has_nonspace s'
  end.

Fixpoint has_space (s : string) : bool :=
  match s with
  | EmptyString => false
  | String c s' => isspace c || has_space s'
  end.

End Str.

(** ** The rule store *)

Record CategoryRule : Type := {
  keywords : list string;
  weight : option Q
}.

(** [info.get('weight', 1.0)] *)
Definition get_weight (info : CategoryRule) : Q :=
  match weight info with
  | Some w => w
  | None => 1%Q
  end.

Record RuleSet : Type := {
  categories : list (string * CategoryRule);
  unknown_threshold : Q
}.

(** ** keyword_match *)

(** [sum(1 for kw in info['keywords'] if kw in text_lower)] *)
Fixpoint keyword_hits (kws : list string) (text_lower : string) : nat :=
  match kws with
  | [] => 0
  | kw :: kws' =>
      (if Str.contains kw text_lower then 1 else 0)
      + keyword_hits kws' text_lower
  end.

Definition category_score (info : CategoryRule) (text_lower : string) : Q :=
  (inject_Z (Z.of_nat (keyword_hits (keywords info) text_lower))
   * get_weight info)%Q.

(** The [matches] dict built by the loop, in insertion order. *)
Fixpoint build_matches (cats : list (string * CategoryRule))
    (text_lower : string) : list (string * Q) :=
  match cats with
  | [] => []
  | (category, info) :: cats' =>
      if (0 <? keyword_hits (keywords info) text_lower)%nat
      then (category, category_score info text_lower)
           :: build_matches cats' text_lower
      else build_matches cats' text_lower
  end.

Definition Qltb (x y : Q) : bool := negb (Qle_bool y x).

(** [max(matches, key=matches.get)]: the first key with the largest value. *)
Fixpoint py_max (best : string * Q) (rest : list (string * Q)) : string * Q :=
  match rest with
  | [] => best
  | m :: rest' =>
      if Qltb (snd best) (snd m) then py_max m rest' else py_max best rest'
  end.

Definition word_count (text : string) : nat := length (Str.split text).

Definition keyword_match (rules : RuleSet) (text : string)
    : result (string * Q) :=
  let text_lower := Str.lower text in
  match build_matches (categories rules) text_lower with
  | m :: ms =>
      let best := py_max m ms in
      if (word_count text =? 0)%nat then Raise ZeroDivisionError
      else Ok (fst best,
               (snd best / inject_Z (Z.of_nat (word_count text)))%Q)
  | [] => Ok ("Unknown", 0%Q)
  end.

(** The rule file of the design document's worked example. *)
Definition example_rules : RuleSet := {|
  categories :=
    [ ("Healthcare", {| keywords := ["pharmacy"; "doctor"];
                        weight := Some (3 # 2)%Q |});
      ("Groceries", {| keywords := ["walmart"; "grocery"];
                       weight := None |}) ];
  unknown_threshold := (3 # 10)%Q
|}.

(** The rule set of the worked example: one category. *)
Definition healthcare_rules : RuleSet := {|
  categories :=
    [ ("Healthcare", {| keywords := ["pharmacy"; "doctor"];
                        weight := Some (3 # 2)%Q |}) ];
  unknown_threshold := (3 # 10)%Q
|}.

(** ** The scikit-learn objects the engine owns

    Each object is an opaque state; a method that refits returns the new
    state next to its result, a method that only reads returns its result.
    Nothing is assumed about what the methods compute. *)

Class Sklearn : Type := {
  (** one row of a TF-IDF matrix *)
  fvec : Type;
  (** [TfidfVectorizer(max_features=500, ngram_range=(1, 3))] *)
  vectorizer_t : Type;
  new_vectorizer : vectorizer_t;
  fit_transform : vectorizer_t -> list string
                  -> vectorizer_t * result (list fvec);
  transform : vectorizer_t -> list string -> result (list fvec);
  (** [RandomForestClassifier(n_estimators=100, max_depth=10,
      random_state=42)] *)
  classifier_t : Type;
  new_forest : classifier_t;
  forest_fit : classifier_t -> list fvec -> list string -> list (option Q)
               -> classifier_t * result unit;
  predict : classifier_t -> list fvec -> result (list string);
  (** [predict_proba(X).max(axis=1)] *)
  predict_proba_max : classifier_t -> list fvec -> result (list Q);
  (** [DBSCAN(eps=0.3, min_samples=2, metric='cosine').fit_predict] *)
  dbscan_fit_predict : list fvec -> list Z
}.

(** ** Data frames *)

Inductive Method : Type := RuleBased | MLBased.

Definition method_str (m : Method) : string :=
  match m with
  | RuleBased => "rule-based"
  | MLBased => "ml-based"
  end.

(** An input record: the two columns [classify_batch] reads. *)
Record Transaction : Type := {
  tx_narration : string;
  tx_amount : Q
}.

(** A row of the frame [classify_batch] builds. *)
Record Row : Type := {
  narration : string;
  amount : Q;
  category : string;
  confidence : Q;
  method : Method
}.

Inductive value : Type :=
  | VStr (s : string)
  | VFloat (q : Q).

(** The dict literal appended to [results] for each row; its keys are the
    columns of the resulting frame. *)
Definition to_dict (r : Row) : gmap string value :=
  <["narration" := VStr (narration r)]>
  (<["amount" := VFloat (amount r)]>
  (<["category" := VStr (category r)]>
  (<["confidence" := VFloat (confidence r)]>
  (<["method" := VStr (method_str (method r))]> ∅)))).

Definition set_category (c : string) (r : Row) : Row :=
  {| narration := narration r; amount := amount r; category := c;
     confidence := confidence r; method := method r |}.

Definition set_confidence (q : Q) (r : Row) : Row :=
  {| narration := narration r; amount := amount r; category := category r;
     confidence := q; method := method r |}.

Definition set_method (m : Method) (r : Row) : Row :=
  {| narration := narration r; amount := amount r; category := category r;
     confidence := confidence r; method := m |}.

(** [df[mask]] *)
Fixpoint select_rows {A} (mask : list bool) (df : list A) : list A :=
  match mask, df with
  | true :: mask', r :: df' => r :: select_rows mask' df'
  | false :: mask', _ :: df' => select_rows mask' df'
  | _, _ => []
  end.

(** [df.loc[mask, col] = values]: the selected rows take the values in
    order; pandas raises when the counts differ. *)
Fixpoint loc_assign {V} (set : V -> Row -> Row) (mask : list bool)
    (values : list V) (df : list Row) : result (list Row) :=
  match df with
  | [] =>
      match values with
      | [] => Ok []
      | _ :: _ => Raise (ValueError "length mismatch")
      end
  | r :: df' =>
      match mask with
      | true :: mask' =>
          match values with
          | v :: values' =>
              rest <- loc_assign set mask' values' df' ;;
              Ok (set v r :: rest)
          | [] => Raise (ValueError "length mismatch")
          end
      | false :: mask' =>
          rest <- loc_assign set mask' values df' ;; Ok (r :: rest)
      | [] => rest <- loc_assign set [] values df' ;; Ok (r :: rest)
      end
  end.

(** [df.loc[mask, col] = scalar] *)
Fixpoint loc_fill (set : Row -> Row) (mask : list bool) (df : list Row)
    : list Row :=
  match mask, df with
  | true :: mask', r :: df' => set r :: loc_fill set mask' df'
  | false :: mask', r :: df' => r :: loc_fill set mask' df'
  | _, _ => df
  end.

(** [mask.sum()]: the number of [True] entries. *)
Definition mask_sum (mask : list bool) : nat :=
  length (select_rows mask mask).

(** ** The engine *)

Section Engine.
Context `{SK : Sklearn}.

Record Engine : Type := {
  rules : RuleSet;
  vectorizer : vectorizer_t;
  ml_classifier : option classifier_t;
  discovered_categories : gmap string (list string)
}.

(** [__init__], after the rule file has been parsed. *)
Definition init (rs : RuleSet) : Engine := {|
  rules := rs;
  vectorizer := new_vectorizer;
  ml_classifier := None;
  discovered_categories := ∅
|}.

Definition with_vectorizer (v : vectorizer_t) (e : Engine) : Engine :=
  {| rules := rules e; vectorizer := v;
     ml_classifier := ml_classifier e;
     discovered_categories := discovered_categories e |}.

Definition with_classifier (c : classifier_t) (e : Engine) : Engine :=
  {| rules := rules e; vectorizer := vectorizer e;
     ml_classifier := Some c;
     discovered_categories := discovered_categories e |}.

(** One iteration of the loop of [classify_batch]. *)
Definition rule_row (rs : RuleSet) (tx : Transaction) : result Row :=
  m <- keyword_match rs (tx_narration tx) ;;
  Ok {| narration := tx_narration tx; amount := tx_amount tx;
        category := fst m; confidence := snd m; method := RuleBased |}.

Definition _ml_classify (e : Engine) (df : list Row) (mask : list bool)
    : result (list Row) :=
  let low_conf_df := select_rows mask df in
  X <- transform (vectorizer e) (map narration low_conf_df) ;;
  match ml_classifier e with
  | None => Raise AttributeError
  | Some clf =>
      predictions <- predict clf X ;;
      probabilities <- predict_proba_max clf X ;;
      df1 <- loc_assign set_category mask predictions df ;;
      df2 <- loc_assign set_confidence mask probabilities df1 ;;
      Ok (loc_fill (set_method MLBased) mask df2)
  end.

Definition low_conf_mask (e : Engine) (df : list Row) : list bool :=
  map (fun r => Qltb (confidence r) (unknown_threshold (rules e))) df.

Definition classify_batch (e : Engine) (df : list Transaction)
    : result (list Row) :=
  result_df <- mapM (rule_row (rules e)) df ;;
  match ml_classifier e with
  | Some _ =>
      match result_df with
      | [] => Raise (KeyError "confidence")
      | _ :: _ =>
          let mask := low_conf_mask e result_df in
          if (0 <? mask_sum mask)%nat
          then _ml_classify e result_df mask
          else Ok result_df
      end
  | None => Ok result_df
  end.

(** [enumerate(labels)] filtered on the label, reading [unknown_texts[i]]. *)
Fixpoint cluster_texts (unknown_texts : list string) (i : nat)
    (labels : list Z) (label : Z) : result (list string) :=
  match labels with
  | [] => Ok []
  | l :: labels' =>
      if (l =? label)%Z then
        match unknown_texts !! i with
        | Some t =>
            rest <- cluster_texts unknown_texts (S i) labels' label ;;
            Ok (t :: rest)
        | None => Raise IndexError
        end
      else cluster_texts unknown_texts (S i) labels' label
  end.

Definition category_name (label : Z) : string :=
  "NewCategory_" +:+ pretty label.

(** The loop over [set(labels)]. *)
Fixpoint discover_loop (unknown_texts : list string) (labels : list Z)
    (todo : list Z) (new_categories : gmap string (list string))
    : result (gmap string (list string)) :=
  match todo with
  | [] => Ok new_categories
  | label :: todo' =>
      if (label =? -1)%Z
      then discover_loop unknown_texts labels todo' new_categories
      else
        texts <- cluster_texts unknown_texts 0 labels label ;;
        discover_loop unknown_texts labels todo'
          (<[category_name label := texts]> new_categories)
  end.

Definition discover_new_categories (e : Engine)
    (unknown_texts : list string)
    : Engine * result (gmap string (list string)) :=
  if (length unknown_texts <? 5)%nat then (e, Ok ∅)
  else
    let fitted := fit_transform (vectorizer e) unknown_texts in
    let e' := with_vectorizer (fst fitted) e in
    match snd fitted with
    | Raise ex => (e', Raise ex)
    | Ok X =>
        let labels := dbscan_fit_predict X in
        (e', discover_loop unknown_texts labels (remove_dups labels) ∅)
    end.

Definition Qsum (l : list Q) : Q := foldr Qplus 0%Q l.

(** [amount.abs() / amount.abs().sum()] on a column in which no amount
    is missing; [None] is the NaN of 0/0. *)
Definition sample_weights (amounts : list Q) : list (option Q) :=
  let total := Qsum (map Qabs amounts) in
  map (fun a => if Qeq_bool total 0 then None
                else Some (Qabs a / total)%Q) amounts.

(** [df['category']] on the frame [pd.DataFrame(results)]: a frame built
    from no rows has no columns. *)
Definition category_column (df : list Row) : result (list string) :=
  match df with
  | [] => Raise (KeyError "category")
  | _ :: _ => Ok (map category df)
  end.

(** The value returned is the line the method prints.  The mask
    [df['category'] != 'Unknown'] is computed first, before the count of
    labelled rows is looked at: a frame without columns raises there and
    the engine is left as it was. *)
Definition train_ml_model (e : Engine) (df : list Row)
    : Engine * result string :=
  match category_column df with
  | Raise ex => (e, Raise ex)
  | Ok _ =>
      let train_df := filter (fun r => category r <> "Unknown") df in
      if (length train_df <? 10)%nat
      then (e, Ok "Not enough labeled data for training")
      else
        let fitted :=
          fit_transform (vectorizer e) (map narration train_df) in
        let e1 := with_vectorizer (fst fitted) e in
        match snd fitted with
        | Raise ex => (e1, Raise ex)
        | Ok X =>
            let y := map category train_df in
            let trained :=
              forest_fit new_forest X y
                (sample_weights (map amount train_df)) in
            let e2 := with_classifier (fst trained) e1 in
            match snd trained with
            | Raise ex => (e2, Raise ex)
            | Ok _ =>
                (e2, Ok ("Model trained on " +:+ pretty (length train_df)
                         +:+ " samples"))
            end
        end
  end.

End Engine.

(** ** The properties the claims speak about *)

Definition best_score (rules : RuleSet) (text : string) : Q :=
  match build_matches (categories rules) (Str.lower text) with
  | m :: ms => snd (py_max m ms)
  | [] => 0%Q
  end.

(** Some keyword of some category occurs in the lowercased text. *)
Definition some_keyword_occurs (rules : RuleSet) (text : string) : Prop :=
  exists c info kw,
    (c, info) ∈ categories rules /\ kw ∈ keywords info /\
    Str.contains kw (Str.lower text) = true.

(** Every keyword has a character that is not whitespace. *)
Definition keywords_nonblank (rules : RuleSet) : Prop :=
  forall c info kw,
    (c, info) ∈ categories rules -> kw ∈ keywords info ->
    Str.has_nonspace kw = true.

(** The invariant of the rule store: no negative weight. *)
Definition weights_nonneg (rules : RuleSet) : Prop :=
  forall c info, (c, info) ∈ categories rules -> (0 <= get_weight info)%Q.

(** Executable forms of the three predicates, for concrete rule sets. *)
Definition occurs_in (rules : RuleSet) (text : string) : bool :=
  existsb (fun ci => existsb (fun kw => Str.contains kw (Str.lower text))
                             (keywords (snd ci)))
          (categories rules).

Definition nonblank_b (rules : RuleSet) : bool :=
  forallb (fun ci => forallb Str.has_nonspace (keywords (snd ci)))
          (categories rules).

Definition nonneg_b (rules : RuleSet) : bool :=
  forallb (fun ci => Qle_bool 0 (get_weight (snd ci))) (categories rules).

(** What one iteration of the rule-based pass yields for a record. *)
Definition rule_based_result (rs : RuleSet) (tx : Transaction) (r : Row)
    : Prop :=
  keyword_match rs (tx_narration tx) = Ok (category r, confidence r)
  /\ narration r = tx_narration tx /\ amount r = tx_amount tx
  /\ method r = RuleBased.

(** ** A small implementation of the [Sklearn] interface

    Used to run the engine on concrete data: a bag-of-words vectorizer
    whose fitted state is its vocabulary, a classifier that memorises its
    training rows and refuses inputs with another number of features (as
    scikit-learn estimators do), and a clustering that groups identical
    rows. *)

Module Double.

Definition tokens (doc : string) : list string := Str.split (Str.lower doc).

Definition vocabulary (docs : list string) : list string :=
  remove_dups (concat (map tokens docs)).

Fixpoint occurrences (w : string) (ws : list string) : nat :=
  match ws with
  | [] => 0
  | x :: ws' => (if bool_decide (x = w) then 1 else 0) + occurrences w ws'
  end.

Definition bag (vocab : list string) (doc : string) : list nat :=
  map (fun w => occurrences w (tokens doc)) vocab.

Definition vec_fit_transform (_ : option (list string))
    (docs : list string) : option (list string) * result (list (list nat)) :=
  let vocab := vocabulary docs in
  match vocab with
  | [] => (None, Raise (ValueError "empty vocabulary"))
  | _ :: _ => (Some vocab, Ok (map (bag vocab) docs))
  end.

Definition vec_transform (v : option (list string)) (docs : list string)
    : result (list (list nat)) :=
  match v with
  | None => Raise NotFittedError
  | Some vocab => Ok (map (bag vocab) docs)
  end.

Record forest : Type := {
  n_features : nat;
  memory : list (list nat * string)
}.

Definition fit (_ : option forest) (X : list (list nat)) (y : list string)
    (w : list (option Q)) : option forest * result unit :=
  if forallb (fun o => match o with Some _ => true | None => false end) w
  then
    match X with
    | [] => (None, Raise (ValueError "no samples"))
    | x :: _ =>
        (Some {| n_features := length x; memory := zip X y |}, Ok tt)
    end
  else (None, Raise (ValueError "sample_weight contains NaN")).

Fixpoint recall (mem : list (list nat * string)) (x : list nat)
    : option string :=
  match mem with
  | [] => None
  | (x', label) :: mem' =>
      if bool_decide (x' = x) then Some label else recall mem' x
  end.

Definition first_label (mem : list (list nat * string)) : string :=
  match mem with
  | [] => "Unknown"
  | (_, label) :: _ => label
  end.

Definition check (f : forest) (x : list nat) : result unit :=
  if (length x =? n_features f)%nat then Ok tt
  else Raise (ValueError "X has a different number of features").

Definition clf_predict (c : option forest) (X : list (list nat))
    : result (list string) :=
  match c with
  | None => Raise NotFittedError
  | Some f =>
      mapM (fun x => _ <- check f x ;;
                     Ok (match recall (memory f) x with
                         | Some label => label
                         | None => first_label (memory f)
                         end)) X
  end.

Definition clf_proba (c : option forest) (X : list (list nat))
    : result (list Q) :=
  match c with
  | None => Raise NotFittedError
  | Some f =>
      mapM (fun x => _ <- check f x ;;
                     Ok (match recall (memory f) x with
                         | Some _ => 1%Q
                         | None => (1 # 2)%Q
                         end)) X
  end.

Fixpoint first_index (x : list nat) (X : list (list nat)) (i : nat) : nat :=
  match X with
  | [] => i
  | x' :: X' => if bool_decide (x' = x) then i else first_index x X' (S i)
  end.

Definition copies (x : list nat) (X : list (list nat)) : nat :=
  length (filter (fun x' => x' = x) X).

(** Rows that occur at least twice form a cluster; the rest is noise. *)
Definition cluster (X : list (list nat)) : list Z :=
  map (fun x => if (2 <=? copies x X)%nat
                then Z.of_nat (first_index x X 0) else (-1)%Z) X.

#[export] Instance sklearn : Sklearn := {|
  fvec := list nat;
  vectorizer_t := option (list string);
  new_vectorizer := None;
  fit_transform := vec_fit_transform;
  transform := vec_transform;
  classifier_t := option forest;
  new_forest := None;
  forest_fit := fit;
  predict := clf_predict;
  predict_proba_max := clf_proba;
  dbscan_fit_predict := cluster
|}.

Definition row (n : string) (a : Q) (c : string) (q : Q) : Row :=
  {| narration := n; amount := a; category := c; confidence := q;
     method := RuleBased |}.

(** Ten labelled rows and one unlabelled, enough to train. *)
Definition labelled : list Row :=
  [ row "cvs pharmacy" 45 "Healthcare" (3 # 4);
    row "doctor visit" 120 "Healthcare" (3 # 4);
    row "pharmacy refill" 20 "Healthcare" (3 # 4);
    row "city doctor" 90 "Healthcare" (3 # 4);
    row "night pharmacy" 15 "Healthcare" (3 # 4);
    row "walmart run" 60 "Groceries" (1 # 2);
    row "grocery store" 35 "Groceries" (1 # 2);
    row "walmart online" 80 "Groceries" (1 # 2);
    row "corner grocery" 12 "Groceries" (1 # 2);
    row "walmart weekly" 140 "Groceries" (1 # 2);
    row "acme corp" 100 "Unknown" 0 ].

(** The four rows of the test fixture [classified_data]. *)
Definition classified_data : list Row :=
  [ row "cvs pharmacy prescription" 45 "Healthcare" (107 # 125);
    row "walmart grocery shopping" (251 # 2) "Groceries" (371 # 500);
    row "uber ride downtown" 28 "Transportation" (891 # 1000);
    row "unknown merchant" 50 "Unknown" 0 ].

Definition fresh : Engine := init example_rules.

Definition trained : Engine := fst (train_ml_model fresh labelled).

Definition batch : list Transaction :=
  [ {| tx_narration := "cvs pharmacy"; tx_amount := 45 |};
    {| tx_narration := "night doctor"; tx_amount := 30 |};
    {| tx_narration := "payment to acme corp"; tx_amount := 100 |};
    {| tx_narration := "monthly payment doctor visit fee";
       tx_amount := 100 |} ].

Definition unknown_texts : list string :=
  [ "netflix subscription monthly"; "spotify premium subscription";
    "netflix subscription monthly"; "hulu streaming service";
    "spotify premium subscription"; "amazon prime membership" ].

End Double.

(** ** Further properties and the callers of the engine *)

(** Every weight is strictly positive. *)
Definition weights_pos (rules : RuleSet) : Prop :=
  forall c info, (c, info) ∈ categories rules -> (0 < get_weight info)%Q.

Definition pos_b (rules : RuleSet) : bool :=
  forallb (fun ci => Qltb 0 (get_weight (snd ci))) (categories rules).

(** [df[df['category'] != 'Unknown']] *)
Definition labelled_rows (rows : list Row) : list Row :=
  filter (fun r => category r <> "Unknown") rows.

(** [(df['category'] != 'Unknown').sum() / len(df)] *)
Definition coverage (df : list Row) : result Q :=
  col <- category_column df ;;
  Ok (inject_Z (Z.of_nat (length (filter (fun c => c <> "Unknown") col)))
      / inject_Z (Z.of_nat (length df)))%Q.

(** [df[df['category'] == 'Unknown']['narration'].tolist()] *)
Definition unknown_narrations (df : list Row) : result (list string) :=
  _ <- category_column df ;;
  Ok (map narration (filter (fun r => category r = "Unknown") df)).

(** [df['category'].value_counts().to_dict()] *)
Definition value_counts (df : list Row) : gmap string nat :=
  foldr (fun r m => <[category r := S (default 0%nat (m !! category r))]> m)
        ∅ df.

Inductive scalar : Type :=
  | SInt (n : nat)
  | SFloat (q : Q).

Inductive driver_exn : Type :=
  | EngineError (e : exn)
  | UnboundLocalError (name : string).

Inductive outcome (A : Type) : Type :=
  | Returned (a : A)
  | Failed (e : driver_exn).
Arguments Returned {A} a.
Arguments Failed {A} e.

Definition has_returned {L A} (r : L * outcome A) : bool :=
  match snd r with
  | Returned _ => true
  | Failed _ => false
  end.

Section Drivers.
Context `{SK : Sklearn}.

(** The dict [save_model] pickles. *)
Record Bundle : Type := {
  b_vectorizer : vectorizer_t;
  b_classifier : option classifier_t;
  b_rules : RuleSet
}.

Definition save_model (e : Engine) : Bundle :=
  {| b_vectorizer := vectorizer e; b_classifier := ml_classifier e;
     b_rules := rules e |}.

(** What a driver does to the outside: MLflow calls, files, prints. The
    calls themselves are taken to succeed. *)
Inductive event : Type :=
  | SetExperiment (name : string)
  | LogParam (key : string) (v : scalar)
  | LogMetric (key : string) (v : scalar)
  | LogCounts (file : string) (d : gmap string nat)
  | LogCategories (file : string) (d : gmap string (list string))
  | SaveModel (path : string) (b : Bundle)
  | LogArtifact (path : string)
  | ToCsv (path : string) (df : list Row)
  | PrintLine (line : string).

(** A driver run: the events so far, and a value or the exception that
    ended the run. *)
Definition Run (A : Type) : Type := list event -> list event * outcome A.

Definition ret {A} (a : A) : Run A := fun log => (log, Returned a).

Definition and_then {A B} (m : Run A) (k : A -> Run B) : Run B :=
  fun log =>
    match m log with
    | (log', Returned a) => k a log'
    | (log', Failed e) => (log', Failed e)
    end.

Definition emit (ev : event) : Run unit :=
  fun log => (log ++ [ev], Returned tt).

Definition lift {A} (r : result A) : Run A :=
  fun log =>
    match r with
    | Ok a => (log, Returned a)
    | Raise e => (log, Failed (EngineError e))
    end.

Definition fail {A} (e : driver_exn) : Run A := fun log => (log, Failed e).

Notation "x <~ m ;; k" := (and_then m (fun x => k))
  (at level 100, m at next level, right associativity).
Notation "m ;;; k" := (and_then m (fun _ => k))
  (at level 100, right associativity).

(** [train_and_log_model] of [train_model.py]. [default_rules] is the
    content of the default rule file, [df] the frame [pd.read_csv]
    returned, [run_id] the id MLflow gave the run. *)
Definition train_and_log_model (default_rules : RuleSet) (run_id : string)
    (df : list Transaction) (experiment_name : string)
    : Run (Engine * list Row) :=
  emit (SetExperiment experiment_name) ;;;
  let classifier := init default_rules in
  classified_df <~ lift (classify_batch classifier df) ;;
  emit (LogParam "total_records" (SInt (length df))) ;;;
  emit (LogParam "unknown_threshold"
          (SFloat (unknown_threshold (rules classifier)))) ;;;
  rule_based_coverage <~ lift (coverage classified_df) ;;
  emit (LogMetric "rule_based_coverage" (SFloat rule_based_coverage)) ;;;
  unknown_texts <~ lift (unknown_narrations classified_df) ;;
  let discovered := discover_new_categories classifier unknown_texts in
  let classifier := fst discovered in
  new_categories <~ lift (snd discovered) ;;
  emit (LogMetric "discovered_clusters" (SInt (size new_categories))) ;;;
  let training := train_ml_model classifier classified_df in
  let classifier := fst training in
  line <~ lift (snd training) ;;
  emit (PrintLine line) ;;;
  final_classified <~
    match ml_classifier classifier with
    | Some _ =>
        final_classified <~ lift (classify_batch classifier df) ;;
        final_coverage <~ lift (coverage final_classified) ;;
        emit (LogMetric "final_coverage" (SFloat final_coverage)) ;;;
        emit (LogCounts "category_distribution.json"
                (value_counts final_classified)) ;;;
        ret (Some final_classified)
    | None => ret None
    end ;;
  emit (SaveModel "models/ner_classifier.pkl" (save_model classifier)) ;;;
  emit (LogArtifact "models/ner_classifier.pkl") ;;;
  (if bool_decide (new_categories = ∅) then ret tt
   else emit (LogCategories "discovered_categories.json" new_categories)) ;;;
  match final_classified with
  | None => fail (UnboundLocalError "final_classified")
  | Some final_classified =>
      emit (ToCsv "data/processed/classified_transactions.csv"
              final_classified) ;;;
      emit (LogArtifact "data/processed/classified_transactions.csv") ;;;
      emit (PrintLine ("Model logged to MLflow. Run ID: " +:+ run_id)) ;;;
      ret (classifier, final_classified)
  end.

(** The steps of [zenml_pipeline.py]. Each step builds its own
    classifier from the default rule file. [df] is the frame [load_data]
    read. *)
Definition load_data (df : list Transaction) : Run (list Transaction) :=
  emit (PrintLine ("Loaded " +:+ pretty (length df)
                   +:+ " transactions")) ;;;
  ret df.

Definition rule_based_classification (default_rules : RuleSet)
    (df : list Transaction) : result (list Row) :=
  classify_batch (init default_rules) df.

Definition discover_categories (default_rules : RuleSet) (df : list Row)
    : result (gmap string (list string)) :=
  unknown_texts <- unknown_narrations df ;;
  snd (discover_new_categories (init default_rules) unknown_texts).

(** [classifier.train_ml_model(df)] and the classifier it has changed in
    place; what the method raises, the step raises. *)
Definition train_classifier (default_rules : RuleSet) (df : list Row)
    : Run Engine :=
  let training := train_ml_model (init default_rules) df in
  line <~ lift (snd training) ;;
  emit (PrintLine line) ;;;
  ret (fst training).

Definition final_classification (df : list Transaction)
    (classifier : Engine) : result (list Row) :=
  classify_batch classifier df.

Definition log_to_mlflow (classifier : Engine) (results : list Row)
    (new_cats : gmap string (list string)) : Run unit :=
  emit (SetExperiment "NER-ZenML-Pipeline") ;;;
  emit (LogMetric "total_transactions" (SInt (length results))) ;;;
  cov <~ lift (coverage results) ;;
  emit (LogMetric "coverage" (SFloat cov)) ;;;
  emit (LogCategories "discovered_categories.json" new_cats) ;;;
  emit (SaveModel "models/ner_classifier.pkl" (save_model classifier)) ;;;
  emit (LogArtifact "models/ner_classifier.pkl") ;;;
  emit (ToCsv "data/processed/final_results.csv" results) ;;;
  emit (LogArtifact "data/processed/final_results.csv").

(** [ner_classification_pipeline], the steps run in the order written;
    the value is the [final_results] artifact. *)
Definition ner_classification_pipeline (default_rules : RuleSet)
    (data : list Transaction) : Run (list Row) :=
  df <~ load_data data ;;
  classified <~ lift (rule_based_classification default_rules df) ;;
  new_cats <~ lift (discover_categories default_rules classified) ;;
  classifier <~ train_classifier default_rules classified ;;
  final_results <~ lift (final_classification df classifier) ;;
  log_to_mlflow classifier final_results new_cats ;;;
  ret final_results.

End Drivers.

(** Runs of the drivers on the small implementation. *)
Module Scenario.
Import Double.

Definition as_transaction (r : Row) : Transaction :=
  {| tx_narration := narration r; tx_amount := amount r |}.

(** Ten records the rules label and one they do not. *)
Definition training_batch : list Transaction := map as_transaction labelled.

(** The same labelled rows with every amount zero. *)
Definition zero_amounts : list Row :=
  map (fun r => row (narration r) 0 (category r) (confidence r)) labelled.

(** A rule set whose first category has a blank keyword. *)
Definition blank_rules : RuleSet := {|
  categories :=
    [ ("Misc", {| keywords := [""]; weight := None |});
      ("Healthcare", {| keywords := ["pharmacy"];
                        weight := Some (3 # 2)%Q |}) ];
  unknown_threshold := (3 # 10)%Q
|}.

(** Two categories that tie on "walmart pharmacy". *)
Definition tie_rules : RuleSet := {|
  categories :=
    [ ("Groceries", {| keywords := ["walmart"]; weight := None |});
      ("Healthcare", {| keywords := ["pharmacy"]; weight := None |}) ];
  unknown_threshold := (3 # 10)%Q
|}.

End Scenario.

(** * Proofs *)

Example split_example :
  Str.split "  cvs pharmacy  pickup " = ["cvs"; "pharmacy"; "pickup"].
Proof. reflexivity. Qed.

Example keyword_match_example :
  keyword_match example_rules "CVS Pharmacy prescription pickup"
  = Ok ("Healthcare", ((3 # 2) / 4)%Q).
Proof. reflexivity. Qed.

(** ** Facts about the string operations *)

Module StrFacts.
Import Str.

Lemma app_nil t : "" +:+ t = t.
Proof. done. Qed.

Lemma app_cons d s t : String d s +:+ t = String d (s +:+ t).
Proof. done. Qed.

Lemma isspace_lower_char c : isspace (lower_char c) = isspace c.
Proof. by destruct c as [[] [] [] [] [] [] [] []]. Qed.

Lemma has_nonspace_lower s : has_nonspace (lower s) = has_nonspace s.
Proof.
  induction s as [|c s IH]; simpl; [done|].
  by rewrite isspace_lower_char, IH.
Qed.

Lemma lower_app s t : lower (s +:+ t) = lower s +:+ lower t.
Proof.
  induction s as [|c s IH]; [done|].
  rewrite app_cons. simpl. by rewrite IH.
Qed.

Lemma prefix_empty s : String.prefix "" s = true.
Proof. by destruct s. Qed.

Lemma prefix_cons c sub d s :
  String.prefix (String c sub) (String d s) = true <->
  c = d /\ String.prefix sub s = true.
Proof. simpl. destruct (ascii_dec c d); intuition congruence. Qed.

Lemma prefix_nonspace sub s :
  String.prefix sub s = true -> has_nonspace sub = true ->
  has_nonspace s = true.
Proof.
  revert s. induction sub as [|c sub IH]; intros [|d s]; try done.
  intros [-> Hp]%prefix_cons. simpl.
  intros [Hc|Hs]%orb_true_iff; apply orb_true_iff; eauto.
Qed.

Lemma contains_nonspace sub s :
  contains sub s = true -> has_nonspace sub = true ->
  has_nonspace s = true.
Proof.
  induction s as [|d s IH]; cbn [contains].
  - rewrite orb_false_r. apply prefix_nonspace.
  - intros [Hp|Hc]%orb_true_iff Hsub.
    + by apply (prefix_nonspace sub (String d s)).
    + simpl. apply orb_true_iff. right. by apply IH.
Qed.

Lemma prefix_app sub s t :
  String.prefix sub s = true -> String.prefix sub (s +:+ t) = true.
Proof.
  revert s. induction sub as [|c sub IH]; intros s.
  - intros _. apply prefix_empty.
  - destruct s as [|d s]; [done|]. rewrite app_cons.
    intros [-> Hp]%prefix_cons. apply prefix_cons. auto.
Qed.

Lemma contains_app_l sub s t :
  contains sub s = true -> contains sub (s +:+ t) = true.
Proof.
  induction s as [|d s IH].
  - cbn [contains]. rewrite orb_false_r, app_nil.
    destruct sub; [|done]. intros _. by destruct t.
  - rewrite app_cons. cbn [contains].
    intros [Hp|Hc]%orb_true_iff; apply orb_true_iff.
    + left. rewrite <- app_cons. by apply prefix_app.
    + right. by apply IH.
Qed.

Lemma prefix_refl s : String.prefix s s = true.
Proof.
  induction s as [|c s IH]; [done|]. by apply prefix_cons.
Qed.

Lemma contains_app_r sub s : contains sub (s +:+ sub) = true.
Proof.
  induction s as [|d s IH].
  - rewrite app_nil. destruct sub; [done|]. cbn [contains].
    apply orb_true_iff. left. apply prefix_refl.
  - rewrite app_cons. cbn [contains]. apply orb_true_iff. by right.
Qed.

Lemma split_nil s : split s = [] <-> has_nonspace s = false.
Proof.
  induction s as [|c s IH]; simpl; [done|].
  destruct (isspace c); simpl; [done|].
  split; [|done].
  destruct (starts_word s); [destruct (split s)|]; done.
Qed.

Lemma split_starts_word s :
  starts_word s = true -> exists w ws, split s = w :: ws.
Proof.
  intros H. destruct (split s) as [|w ws] eqn:E; [|eauto].
  apply split_nil in E. destruct s as [|c s]; simpl in *; [done|].
  destruct (isspace c); done.
Qed.

(** A whitespace character ends the word before it. *)
Lemma split_app_space s c t :
  isspace c = true -> split (s +:+ String c t) = split s ++ split t.
Proof.
  intros Hc. induction s as [|d s IH].
  - rewrite app_nil. simpl. by rewrite Hc.
  - rewrite app_cons. cbn [split]. destruct (isspace d); [done|].
    assert (starts_word (s +:+ String c t) = starts_word s) as ->.
    { destruct s; [|done]. rewrite app_nil. simpl. by rewrite Hc. }
    destruct (starts_word s) eqn:Hs.
    + destruct (split_starts_word s Hs) as (w & ws & Hw).
      by rewrite IH, Hw.
    + by rewrite IH.
Qed.

Lemma split_cons c s :
  split (String c s) =
  if isspace c then split s
  else if starts_word s then
    match split s with
    | w :: ws => String c w :: ws
    | [] => [String c ""]
    end
  else String c "" :: split s.
Proof. done. Qed.

(** A non-empty string without whitespace is one word. *)
Lemma split_word w :
  w <> "" -> has_space w = false -> split w = [w].
Proof.
  induction w as [|c w IH]; [done|]. intros _ Hsp.
  simpl in Hsp. apply orb_false_iff in Hsp as [Hc Hw].
  rewrite split_cons, Hc. destruct w as [|d w]; [done|].
  rewrite IH by done. simpl in Hw. apply orb_false_iff in Hw as [Hd _].
  simpl. by rewrite Hd.
Qed.

Lemma split_append_word s w :
  w <> "" -> has_space w = false ->
  split (s +:+ " " +:+ w) = split s ++ [w].
Proof.
  intros Hne Hw.
  change (s +:+ " " +:+ w) with (s +:+ String " "%char w).
  rewrite split_app_space by reflexivity. by rewrite (split_word w).
Qed.

End StrFacts.

(** ** Facts about the matcher *)

Section MatcherFacts.

Lemma Qltb_lt x y : Qltb x y = true <-> (x < y)%Q.
Proof.
  unfold Qltb. rewrite negb_true_iff, <- not_true_iff_false, Qle_bool_iff.
  split; [apply Qnot_le_lt | apply Qlt_not_le].
Qed.

Lemma Qltb_ge x y : Qltb x y = false <-> (y <= x)%Q.
Proof. unfold Qltb. by rewrite negb_false_iff, Qle_bool_iff. Qed.

Lemma py_max_in best rest : py_max best rest ∈ best :: rest.
Proof.
  revert best. induction rest as [|m rest IH]; intros best; simpl.
  - apply list_elem_of_here.
  - destruct (Qltb (snd best) (snd m)).
    + apply list_elem_of_further, IH.
    + specialize (IH best). apply elem_of_cons in IH as [->|IH].
      * apply list_elem_of_here.
      * by do 2 apply list_elem_of_further.
Qed.

Lemma py_max_ge_best best rest : (snd best <= snd (py_max best rest))%Q.
Proof.
  revert best. induction rest as [|m rest IH]; intros best; simpl.
  - apply Qle_refl.
  - destruct (Qltb (snd best) (snd m)) eqn:E; [|apply IH].
    apply Qltb_lt in E. eapply Qle_trans; [by apply Qlt_le_weak|apply IH].
Qed.

Lemma py_max_ge best rest m :
  m ∈ best :: rest -> (snd m <= snd (py_max best rest))%Q.
Proof.
  revert best. induction rest as [|x rest IH]; intros best.
  - intros ->%list_elem_of_singleton. apply Qle_refl.
  - simpl. intros [->|[->|Hm]%elem_of_cons]%elem_of_cons.
    + destruct (Qltb (snd best) (snd x)) eqn:E.
      * apply Qltb_lt in E.
        eapply Qle_trans; [by apply Qlt_le_weak|apply py_max_ge_best].
      * apply py_max_ge_best.
    + destruct (Qltb (snd best) (snd x)) eqn:E.
      * apply py_max_ge_best.
      * apply Qltb_ge in E.
        eapply Qle_trans; [exact E|apply py_max_ge_best].
    + destruct (Qltb (snd best) (snd x));
        apply IH; by apply list_elem_of_further.
Qed.

Lemma keyword_hits_pos kws t :
  (0 < keyword_hits kws t)%nat <->
  exists kw, kw ∈ kws /\ Str.contains kw t = true.
Proof.
  induction kws as [|k kws IH]; simpl.
  - split; [lia|]. by intros (kw & ?%not_elem_of_nil & _).
  - split.
    + destruct (Str.contains k t) eqn:E.
      * intros _. exists k. split; [apply list_elem_of_here|done].
      * intros H. apply IH in H as (kw & ? & ?).
        exists kw. split; [by apply list_elem_of_further|done].
    + intros (kw & [->|Hin]%elem_of_cons & Hc).
      * rewrite Hc. lia.
      * assert (0 < keyword_hits kws t)%nat by (apply IH; eauto). lia.
Qed.

Lemma keyword_hits_mono kws t t' :
  (forall kw, kw ∈ kws -> Str.contains kw t = true ->
              Str.contains kw t' = true) ->
  (keyword_hits kws t <= keyword_hits kws t')%nat.
Proof.
  induction kws as [|k kws IH]; simpl; intros H; [lia|].
  assert (keyword_hits kws t <= keyword_hits kws t')%nat.
  { apply IH. intros kw Hkw. apply H. by apply list_elem_of_further. }
  destruct (Str.contains k t) eqn:E.
  - rewrite (H k) by (done || apply list_elem_of_here). lia.
  - destruct (Str.contains k t'); lia.
Qed.

Lemma keyword_hits_new kws t t' kw :
  (forall k, k ∈ kws -> Str.contains k t = true ->
             Str.contains k t' = true) ->
  kw ∈ kws -> Str.contains kw t = false -> Str.contains kw t' = true ->
  (S (keyword_hits kws t) <= keyword_hits kws t')%nat.
Proof.
  induction kws as [|k kws IH]; simpl; intros H Hin Hold Hnew.
  - by apply not_elem_of_nil in Hin.
  - assert (forall k0, k0 ∈ kws -> Str.contains k0 t = true ->
                       Str.contains k0 t' = true) as H'.
    { intros k0 Hk0. apply H. by apply list_elem_of_further. }
    pose proof (keyword_hits_mono kws t t' H').
    apply elem_of_cons in Hin as [<-|Hin].
    + rewrite Hold, Hnew. lia.
    + specialize (IH H' Hin Hold Hnew).
      destruct (Str.contains k t) eqn:E.
      * rewrite (H k) by (done || apply list_elem_of_here). lia.
      * destruct (Str.contains k t'); lia.
Qed.

Lemma elem_of_build_matches cats t c s :
  (c, s) ∈ build_matches cats t <->
  exists info, (c, info) ∈ cats
               /\ (0 < keyword_hits (keywords info) t)%nat
               /\ s = category_score info t.
Proof.
  induction cats as [|[c0 info0] cats IH]; simpl.
  - split; [by intros ?%not_elem_of_nil|].
    by intros (? & ?%not_elem_of_nil & _).
  - destruct (0 <? keyword_hits (keywords info0) t)%nat eqn:E.
    + apply Nat.ltb_lt in E. rewrite elem_of_cons, IH. split.
      * intros [[= -> ->]|(info & ? & ? & ?)].
        -- exists info0. split; [apply list_elem_of_here|done].
        -- exists info. split; [by apply list_elem_of_further|done].
      * intros (info & [[= -> ->]|Hin]%elem_of_cons & ? & ->); eauto.
    + apply Nat.ltb_ge in E. rewrite IH. split.
      * intros (info & ? & ? & ?).
        exists info. split; [by apply list_elem_of_further|done].
      * intros (info & [[= -> ->]|Hin]%elem_of_cons & ? & ->);
          [lia|eauto].
Qed.

Lemma build_matches_nil rules text :
  ~ some_keyword_occurs rules text ->
  build_matches (categories rules) (Str.lower text) = [].
Proof.
  intros Hno.
  destruct (build_matches _ _) as [|[c s] ms] eqn:E; [done|].
  assert ((c, s) ∈ build_matches (categories rules) (Str.lower text))
    as Hin by (rewrite E; apply list_elem_of_here).
  apply elem_of_build_matches in Hin as (info & Hc & Hpos & _).
  apply keyword_hits_pos in Hpos as (kw & Hkw & Hocc).
  destruct Hno. by exists c, info, kw.
Qed.

Lemma build_matches_cons rules text :
  some_keyword_occurs rules text ->
  exists m ms, build_matches (categories rules) (Str.lower text) = m :: ms.
Proof.
  intros (c & info & kw & Hc & Hkw & Hocc).
  assert ((c, category_score info (Str.lower text))
            ∈ build_matches (categories rules) (Str.lower text)) as Hin.
  { apply elem_of_build_matches. exists info.
    repeat split; [done|]. apply keyword_hits_pos. eauto. }
  destruct (build_matches _ _) as [|m ms]; [|eauto].
  by apply not_elem_of_nil in Hin.
Qed.

(** A keyword that occurs forces at least one word. *)
Lemma occurs_word_count rules text :
  keywords_nonblank rules -> some_keyword_occurs rules text ->
  (0 < word_count text)%nat.
Proof.
  intros Hnb (c & info & kw & Hc & Hkw & Hocc).
  unfold word_count.
  destruct (Str.split text) eqn:E; [|simpl; lia].
  apply StrFacts.split_nil in E.
  rewrite <- StrFacts.has_nonspace_lower in E.
  rewrite (StrFacts.contains_nonspace kw (Str.lower text)) in E; eauto.
  done.
Qed.

Lemma score_nonneg info t :
  (0 <= get_weight info)%Q -> (0 <= category_score info t)%Q.
Proof.
  intros Hw. unfold category_score. apply Qmult_le_0_compat; [|done].
  change 0%Q with (inject_Z 0). rewrite <- Zle_Qle. lia.
Qed.

End MatcherFacts.

Section Reflection.

Lemma occurs_in_spec rules text :
  occurs_in rules text = true <-> some_keyword_occurs rules text.
Proof.
  unfold occurs_in, some_keyword_occurs. rewrite existsb_exists. split.
  - intros ([c info] & Hc%list_elem_of_In & Hk%existsb_exists).
    destruct Hk as (kw & Hkw%list_elem_of_In & Hocc). by exists c, info, kw.
  - intros (c & info & kw & Hc & Hkw & Hocc). exists (c, info).
    split; [by apply list_elem_of_In|]. apply existsb_exists.
    exists kw. split; [by apply list_elem_of_In|done].
Qed.

Lemma occurs_in_false rules text :
  occurs_in rules text = false -> ~ some_keyword_occurs rules text.
Proof. intros H Hs%occurs_in_spec. congruence. Qed.

Lemma nonblank_b_spec rules :
  nonblank_b rules = true -> keywords_nonblank rules.
Proof.
  unfold nonblank_b. rewrite forallb_forall. intros H c info kw Hc Hkw.
  specialize (H (c, info)). rewrite forallb_forall in H.
  apply H; by apply list_elem_of_In.
Qed.

Lemma nonneg_b_spec rules : nonneg_b rules = true -> weights_nonneg rules.
Proof.
  unfold nonneg_b. rewrite forallb_forall. intros H c info Hc.
  apply Qle_bool_iff, (H (c, info)). by apply list_elem_of_In.
Qed.

End Reflection.

(** ** The keyword matcher: claims *)

Section KeywordMatch.
Implicit Types (rules : RuleSet) (text : string).

Lemma keyword_match_cons rules text m ms :
  build_matches (categories rules) (Str.lower text) = m :: ms ->
  (0 < word_count text)%nat ->
  keyword_match rules text
  = Ok (fst (py_max m ms),
        (snd (py_max m ms) / inject_Z (Z.of_nat (word_count text)))%Q).
Proof.
  intros E Hwc. unfold keyword_match. rewrite E.
  destruct (word_count text =? 0)%nat eqn:E0; [|done].
  apply Nat.eqb_eq in E0. lia.
Qed.

Lemma py_max_category rules text m ms :
  build_matches (categories rules) (Str.lower text) = m :: ms ->
  exists info,
    (fst (py_max m ms), info) ∈ categories rules
    /\ (0 < keyword_hits (keywords info) (Str.lower text))%nat
    /\ snd (py_max m ms) = category_score info (Str.lower text).
Proof.
  intros E. pose proof (py_max_in m ms) as Hin. rewrite <- E in Hin.
  destruct (py_max m ms) as [c s]. by apply elem_of_build_matches in Hin.
Qed.

Lemma keyword_match_nil rules text :
  ~ some_keyword_occurs rules text ->
  keyword_match rules text = Ok ("Unknown", 0%Q).
Proof.
  intros Hno. unfold keyword_match.
  by rewrite (build_matches_nil rules text Hno).
Qed.

(** C2. A text in which no keyword of any category occurs is classified
    as the pair ("Unknown", 0.0): the method returns the category and the
    confidence, and no set of matched keywords. *)
Theorem keyword_match_no_match rules text :
  ~ some_keyword_occurs rules text ->
  keyword_match rules text = Ok ("Unknown", 0%Q).
Proof.
  apply keyword_match_nil.
Qed.

Lemma keyword_match_no_match_witness :
  ~ some_keyword_occurs example_rules "payment to random merchant xyz123"
  /\ keyword_match example_rules "payment to random merchant xyz123"
     = Ok ("Unknown", 0%Q).
Proof.
  assert (~ some_keyword_occurs example_rules
              "payment to random merchant xyz123") as H
    by (apply occurs_in_false; reflexivity).
  split; [exact H | apply (keyword_match_no_match _ _ H)].
Defined.

Lemma keyword_match_defined rules text :
  keywords_nonblank rules ->
  exists c q, keyword_match rules text = Ok (c, q).
Proof.
  intros Hnb. destruct (occurs_in rules text) eqn:E.
  - apply occurs_in_spec in E.
    destruct (build_matches_cons rules text E) as (m & ms & Hm).
    rewrite (keyword_match_cons rules text m ms Hm
               (occurs_word_count rules text Hnb E)).
    eauto.
  - apply occurs_in_false in E.
    rewrite (keyword_match_nil rules text E). eauto.
Qed.

(** C10. When every keyword has a character that is not whitespace,
    [keyword_match] returns a result for every text: a keyword that
    occurs forces a non-empty word split, so the division is never by
    zero; on an empty or whitespace-only text the result is
    ("Unknown", 0.0). *)
Theorem keyword_match_total rules text :
  keywords_nonblank rules ->
  (exists c q, keyword_match rules text = Ok (c, q))
  /\ keyword_match rules text <> Raise ZeroDivisionError
  /\ (some_keyword_occurs rules text -> (0 < word_count text)%nat)
  /\ (Str.has_nonspace text = false ->
      keyword_match rules text = Ok ("Unknown", 0%Q)).
Proof.
  intros Hnb.
  assert (some_keyword_occurs rules text -> (0 < word_count text)%nat)
    as Hwc by apply occurs_word_count, Hnb.
  pose proof (keyword_match_defined rules text Hnb) as Hok.
  repeat split; [done| |done|].
  - destruct Hok as (c & q & ->). done.
  - intros Hblank. apply keyword_match_nil. intros Hocc.
    apply Hwc in Hocc. unfold word_count in Hocc.
    apply StrFacts.split_nil in Hblank. rewrite Hblank in Hocc.
    simpl in Hocc. lia.
Qed.

Lemma keyword_match_total_witness :
  keywords_nonblank example_rules
  /\ keyword_match example_rules "   " = Ok ("Unknown", 0%Q)
  /\ keyword_match example_rules "" = Ok ("Unknown", 0%Q).
Proof.
  assert (keywords_nonblank example_rules) as H
    by (apply nonblank_b_spec; reflexivity).
  split; [exact H|].
  split;
    apply (proj2 (proj2 (proj2 (keyword_match_total example_rules _ H))));
    reflexivity.
Defined.

(** C8 (amended). When a keyword occurs in the text and the text has at
    least one word, [keyword_match] returns a category whose score, the number of its
    keywords present in the lowercased text times its weight (1.0 when
    absent), is the highest, and the confidence is that score divided by
    the number of whitespace-separated words. On the rule set with
    Healthcare {keywords: [pharmacy, doctor], weight: 1.5} the text
    "cvs pharmacy prescription pickup" gives ("Healthcare", 0.375). *)
Theorem keyword_match_best_score :
  (forall rules text,
     some_keyword_occurs rules text -> (0 < word_count text)%nat ->
     exists best info,
       (best, info) ∈ categories rules
       /\ (0 < keyword_hits (keywords info) (Str.lower text))%nat
       /\ keyword_match rules text
          = Ok (best,
                (inject_Z (Z.of_nat
                   (keyword_hits (keywords info) (Str.lower text)))
                 * get_weight info
                 / inject_Z (Z.of_nat (word_count text)))%Q)
       /\ (forall c info',
             (c, info') ∈ categories rules ->
             (0 < keyword_hits (keywords info') (Str.lower text))%nat ->
             (category_score info' (Str.lower text)
              <= category_score info (Str.lower text))%Q)
       /\ (weights_nonneg rules ->
           forall c info',
             (c, info') ∈ categories rules ->
             (category_score info' (Str.lower text)
              <= category_score info (Str.lower text))%Q))
  /\ (exists q,
        keyword_match healthcare_rules "cvs pharmacy prescription pickup"
        = Ok ("Healthcare", q)
        /\ (q == (3 # 2) / 4)%Q /\ (q == 3 # 8)%Q).
Proof.
  split.
  - intros rules text Hocc Hwc.
    destruct (build_matches_cons rules text Hocc) as (m & ms & Hm).
    destruct (py_max_category rules text m ms Hm)
      as (info & Hin & Hpos & Hs).
    exists (fst (py_max m ms)), info.
    assert (forall c info',
              (c, info') ∈ categories rules ->
              (0 < keyword_hits (keywords info') (Str.lower text))%nat ->
              (category_score info' (Str.lower text)
               <= category_score info (Str.lower text))%Q) as Hbest.
    { intros c info' Hc Hpos'. rewrite <- Hs.
      apply (py_max_ge m ms (c, category_score info' (Str.lower text))).
      rewrite <- Hm. apply elem_of_build_matches. eauto. }
    repeat split; [done|done| |done|].
    + rewrite (keyword_match_cons rules text m ms Hm Hwc), Hs. done.
    + intros Hnn c info' Hc.
      destruct (keyword_hits (keywords info') (Str.lower text)) eqn:E.
      * unfold category_score at 1. rewrite E.
        change (inject_Z (Z.of_nat 0)) with 0%Q. rewrite Qmult_0_l.
        apply score_nonneg. by apply (Hnn _ _ Hin).
      * apply (Hbest c); [done|]. rewrite E. lia.
  - eexists. split; [reflexivity|]. split; reflexivity.
Qed.

Lemma keyword_match_best_score_witness :
  some_keyword_occurs example_rules "walmart grocery pharmacy run"
  /\ (0 < word_count "walmart grocery pharmacy run")%nat
  /\ exists best info,
       (best, info) ∈ categories example_rules
       /\ keyword_match example_rules "walmart grocery pharmacy run"
          = Ok (best,
                (inject_Z (Z.of_nat
                   (keyword_hits (keywords info)
                      (Str.lower "walmart grocery pharmacy run")))
                 * get_weight info
                 / inject_Z (Z.of_nat
                     (word_count "walmart grocery pharmacy run")))%Q).
Proof.
  assert (some_keyword_occurs example_rules "walmart grocery pharmacy run")
    as Hocc by (apply occurs_in_spec; reflexivity).
  assert (0 < word_count "walmart grocery pharmacy run")%nat as Hwc
    by (vm_compute; lia).
  split; [exact Hocc|]. split; [exact Hwc|].
  destruct (proj1 keyword_match_best_score _ _ Hocc Hwc)
    as (best & info & Hin & _ & Heq & _).
  exists best, info. split; [exact Hin | exact Heq].
Defined.

(** C8 (as stated) fails: a keyword without any character occurs in
    every text, also in one without a word, and there the division by
    the word count raises instead of giving a confidence. *)
Lemma keyword_occurs_without_words :
  some_keyword_occurs Scenario.blank_rules "  "
  /\ word_count "  " = 0%nat
  /\ keyword_match Scenario.blank_rules "  " = Raise ZeroDivisionError.
Proof.
  split; [apply occurs_in_spec; reflexivity|]. split; reflexivity.
Qed.

Lemma keyword_match_inv rules text c q :
  keyword_match rules text = Ok (c, q) ->
  (build_matches (categories rules) (Str.lower text) = []
   /\ c = "Unknown" /\ q = 0%Q)
  \/ (exists m ms,
        build_matches (categories rules) (Str.lower text) = m :: ms
        /\ (0 < word_count text)%nat
        /\ c = fst (py_max m ms)
        /\ q = (best_score rules text
                / inject_Z (Z.of_nat (word_count text)))%Q).
Proof.
  unfold keyword_match, best_score.
  destruct (build_matches _ _) as [|m ms] eqn:E.
  - intros [= <- <-]. by left.
  - destruct (word_count text =? 0)%nat eqn:E0; [done|].
    apply Nat.eqb_neq in E0. intros [= <- <-]. right.
    exists m, ms. repeat split; [lia].
Qed.

Lemma best_score_nonneg rules text :
  weights_nonneg rules -> (0 <= best_score rules text)%Q.
Proof.
  intros Hnn. unfold best_score.
  destruct (build_matches _ _) as [|m ms] eqn:E; [apply Qle_refl|].
  destruct (py_max_category rules text m ms E) as (info & Hin & _ & ->).
  apply score_nonneg. by apply (Hnn _ _ Hin).
Qed.

Lemma best_score_ge rules text c info :
  (c, info) ∈ categories rules ->
  (0 < keyword_hits (keywords info) (Str.lower text))%nat ->
  (category_score info (Str.lower text) <= best_score rules text)%Q.
Proof.
  intros Hin Hpos. unfold best_score.
  assert ((c, category_score info (Str.lower text))
            ∈ build_matches (categories rules) (Str.lower text)) as Hm
    by (apply elem_of_build_matches; eauto).
  destruct (build_matches _ _) as [|m ms].
  - by apply not_elem_of_nil in Hm.
  - by apply (py_max_ge m ms (c, _)).
Qed.

Lemma inject_nat_pos n : (0 < n)%nat -> (0 < inject_Z (Z.of_nat n))%Q.
Proof.
  intros H. change 0%Q with (inject_Z 0). rewrite <- Zlt_Qlt. lia.
Qed.

(** C1 (as the code has it). With no negative weight the confidence is
    never negative; it is the unclipped quotient of the winning score by
    the word count, so it stays at or below 1 exactly when that score
    does not exceed the number of words. *)
Theorem keyword_match_confidence_bounds rules text c q :
  weights_nonneg rules ->
  keyword_match rules text = Ok (c, q) ->
  (0 <= q)%Q
  /\ ((q <= 1)%Q <->
      (best_score rules text <= inject_Z (Z.of_nat (word_count text)))%Q).
Proof.
  intros Hnn Hk. pose proof (best_score_nonneg rules text Hnn) as Hb.
  apply keyword_match_inv in Hk
    as [(E & _ & ->)|(m & ms & E & Hwc & _ & ->)].
  - split; [apply Qle_refl|]. unfold best_score. rewrite E.
    split; [|done]. intros _. change 0%Q with (inject_Z 0).
    rewrite <- Zle_Qle. lia.
  - pose proof (inject_nat_pos _ Hwc) as Hn.
    set (n := inject_Z (Z.of_nat (word_count text))) in *.
    split.
    + apply Qle_shift_div_l; [done|]. by rewrite Qmult_0_l.
    + split.
      * intros H. apply (Qmult_le_r _ _ n Hn) in H.
        rewrite Qmult_1_l in H.
        eapply Qle_trans; [|exact H]. apply Qle_lteq. right. field.
        intros H0. rewrite H0 in Hn. by apply Qlt_irrefl in Hn.
      * intros H. apply Qle_shift_div_r; [done|]. by rewrite Qmult_1_l.
Qed.

Lemma keyword_match_confidence_bounds_witness :
  weights_nonneg healthcare_rules
  /\ keyword_match healthcare_rules "cvs pharmacy prescription pickup"
     = Ok ("Healthcare", ((3 # 2) / 4)%Q)
  /\ (0 <= (3 # 2) / 4)%Q.
Proof.
  assert (weights_nonneg healthcare_rules) as Hnn
    by (apply nonneg_b_spec; reflexivity).
  assert (keyword_match healthcare_rules "cvs pharmacy prescription pickup"
          = Ok ("Healthcare", ((3 # 2) / 4)%Q)) as Hk by reflexivity.
  split; [exact Hnn|]. split; [exact Hk|].
  exact (proj1 (keyword_match_confidence_bounds _ _ _ _ Hnn Hk)).
Defined.

(** C1 (as stated) fails: the quotient is not clipped. With weight 1.5
    the one-word text "pharmacy" gets confidence 1.5. *)
Lemma confidence_above_one :
  exists q,
    keyword_match healthcare_rules "pharmacy" = Ok ("Healthcare", q)
    /\ (q == 3 # 2)%Q /\ ~ ((0 <= q)%Q /\ (q <= 1)%Q).
Proof.
  eexists. split; [reflexivity|]. split; [reflexivity|].
  intros [_ H]. by vm_compute in H.
Qed.

Lemma assoc_unique {A} (l : list (string * A)) c a b :
  NoDup l.*1 -> (c, a) ∈ l -> (c, b) ∈ l -> a = b.
Proof.
  induction l as [|[c0 a0] l IH]; simpl.
  - by intros _ ?%not_elem_of_nil.
  - intros [Hnot Hnd]%NoDup_cons Ha Hb.
    apply elem_of_cons in Ha as [Ha|Ha], Hb as [Hb|Hb].
    + congruence.
    + destruct Hnot. apply list_elem_of_fmap. exists (c, b).
      split; [simpl; congruence|done].
    + destruct Hnot. apply list_elem_of_fmap. exists (c, a).
      split; [simpl; congruence|done].
    + by apply IH.
Qed.

Lemma contains_extend k text kw :
  Str.contains k (Str.lower text) = true ->
  Str.contains k (Str.lower (text +:+ " " +:+ kw)) = true.
Proof.
  intros H. rewrite StrFacts.lower_app. by apply StrFacts.contains_app_l.
Qed.

Lemma score_extend info text kw :
  (0 <= get_weight info)%Q ->
  (category_score info (Str.lower text)
   <= category_score info (Str.lower (text +:+ " " +:+ kw)))%Q.
Proof.
  intros Hw. unfold category_score. apply Qmult_le_compat_r; [|done].
  rewrite <- Zle_Qle. apply Nat2Z.inj_le, keyword_hits_mono.
  intros k _. apply contains_extend.
Qed.

Lemma best_score_extend rules text kw :
  weights_nonneg rules ->
  (best_score rules text
   <= best_score rules (text +:+ " " +:+ kw))%Q.
Proof.
  intros Hnn. unfold best_score at 1.
  destruct (build_matches _ _) as [|m ms] eqn:E;
    [by apply best_score_nonneg|].
  destruct (py_max_category rules text m ms E) as (info & Hin & Hpos & ->).
  eapply Qle_trans; [apply (score_extend info text kw), (Hnn _ _ Hin)|].
  apply (best_score_ge _ _ _ _ Hin).
  eapply Nat.lt_le_trans; [exact Hpos|].
  apply keyword_hits_mono. intros k _. apply contains_extend.
Qed.

Lemma word_count_extend text kw :
  kw <> "" -> Str.has_space kw = false ->
  word_count (text +:+ " " +:+ kw) = S (word_count text).
Proof.
  intros Hne Hsp. unfold word_count.
  rewrite StrFacts.split_append_word by done.
  rewrite length_app. simpl. lia.
Qed.

(** C7 (amended). Appending one more matching keyword as a new word
    never lowers the winning score, and it raises the number of hits of
    the keyword's category when the text did not contain the keyword.
    The confidence of the extended text is its winning score divided by
    a word count that has grown by one: nothing keeps it from being
    smaller than before. *)
Theorem keyword_match_add_keyword rules text kw :
  weights_nonneg rules ->
  (best_score rules text <= best_score rules (text +:+ " " +:+ kw))%Q
  /\ (forall c info,
        (c, info) ∈ categories rules -> kw ∈ keywords info ->
        kw <> "" -> Str.has_space kw = false ->
        Str.contains kw (Str.lower (text +:+ " " +:+ kw)) = true ->
        word_count (text +:+ " " +:+ kw) = S (word_count text)
        /\ (Str.contains kw (Str.lower text) = false ->
            (S (keyword_hits (keywords info) (Str.lower text))
             <= keyword_hits (keywords info)
                  (Str.lower (text +:+ " " +:+ kw)))%nat)
        /\ exists c',
             keyword_match rules (text +:+ " " +:+ kw)
             = Ok (c',
                   (best_score rules (text +:+ " " +:+ kw)
                    / inject_Z (Z.of_nat (S (word_count text))))%Q)).
Proof.
  intros Hnn. split; [by apply best_score_extend|].
  intros c info Hin Hkw Hne Hsp Hnew.
  set (text' := text +:+ " " +:+ kw) in *.
  pose proof (word_count_extend text kw Hne Hsp) as Hwc'.
  fold text' in Hwc'.
  split; [exact Hwc'|]. split.
  { intros Hold. apply (keyword_hits_new _ _ _ kw); try done.
    intros k _. apply contains_extend. }
  assert (some_keyword_occurs rules text') as Hocc
    by (by exists c, info, kw).
  destruct (build_matches_cons rules text' Hocc) as (m' & ms' & Hm').
  assert (0 < word_count text')%nat as Hpos' by lia.
  exists (fst (py_max m' ms')).
  rewrite (keyword_match_cons rules text' m' ms' Hm' Hpos'), Hwc'.
  unfold best_score. by rewrite Hm'.
Qed.

Lemma keyword_match_add_keyword_witness :
  weights_nonneg example_rules
  /\ (best_score example_rules "cvs pharmacy"
      <= best_score example_rules ("cvs pharmacy" +:+ " " +:+ "doctor"))%Q
  /\ word_count ("cvs pharmacy" +:+ " " +:+ "doctor") = 3%nat
  /\ exists c',
       keyword_match example_rules ("cvs pharmacy" +:+ " " +:+ "doctor")
       = Ok (c',
             (best_score example_rules
                ("cvs pharmacy" +:+ " " +:+ "doctor")
              / inject_Z (Z.of_nat 3))%Q).
Proof.
  assert (weights_nonneg example_rules) as Hnn
    by (apply nonneg_b_spec; reflexivity).
  split; [exact Hnn|].
  destruct (keyword_match_add_keyword example_rules "cvs pharmacy" "doctor"
              Hnn) as [Hscore Hconf].
  split; [exact Hscore|].
  destruct (Hconf "Healthcare"
              {| keywords := ["pharmacy"; "doctor"];
                 weight := Some (3 # 2)%Q |})
    as (Hwc & _ & Hres).
  - apply list_elem_of_here.
  - apply list_elem_of_further, list_elem_of_here.
  - discriminate.
  - reflexivity.
  - reflexivity.
  - split; [exact Hwc | exact Hres].
Defined.

(** C7 (as stated) fails: the added keyword adds a word, and the winning
    score need not grow with it. Under the two-category rule set
    "cvs pharmacy" has confidence 1.5/2 = 0.75; with the Groceries
    keyword "walmart" appended the winner is still Healthcare with score
    1.5, now over three words: 0.5. *)
Lemma add_keyword_lowers_confidence :
  exists q q',
    keyword_match example_rules "cvs pharmacy" = Ok ("Healthcare", q)
    /\ Str.contains "walmart"
         (Str.lower ("cvs pharmacy" +:+ " " +:+ "walmart")) = true
    /\ keyword_match example_rules ("cvs pharmacy" +:+ " " +:+ "walmart")
       = Ok ("Healthcare", q')
    /\ (q == 3 # 4)%Q /\ (q' == 1 # 2)%Q /\ (q' < q)%Q.
Proof.
  do 2 eexists. repeat split; reflexivity.
Qed.

End KeywordMatch.

(** ** The engine: claims *)

Section EngineFacts.
Context `{SK : Sklearn}.
Implicit Types (e : Engine) (df : list Transaction) (mask : list bool).

Lemma mapM_Ok {A B} (f : A -> result B) l out :
  mapM f l = Ok out -> Forall2 (fun a b => f a = Ok b) l out.
Proof.
  revert out. induction l as [|a l IH]; simpl; intros out.
  - intros [= <-]. constructor.
  - destruct (f a) as [b|] eqn:Ea; simpl; [|done].
    destruct (mapM f l) as [bs|] eqn:El; simpl; [|done].
    intros [= <-]. constructor; [done|by apply IH].
Qed.

Lemma mapM_total {A B} (f : A -> result B) l :
  (forall a, a ∈ l -> exists b, f a = Ok b) -> exists out, mapM f l = Ok out.
Proof.
  induction l as [|a l IH]; simpl; intros H; [eauto|].
  destruct (H a) as (b & ->); [apply list_elem_of_here|].
  destruct IH as (bs & ->).
  { intros a' Ha'. apply H. by apply list_elem_of_further. }
  simpl. eauto.
Qed.

Lemma rule_row_Ok rs tx r :
  rule_row rs tx = Ok r <-> rule_based_result rs tx r.
Proof.
  unfold rule_row, rule_based_result.
  destruct (keyword_match rs (tx_narration tx)) as [[c q]|] eqn:E; simpl.
  - split.
    + by intros [= <-].
    + intros ([= -> ->] & Hn & Ha & Hm). destruct r; simpl in *.
      by subst.
  - split; [done|]. by intros [? _].
Qed.

Lemma length_low_conf_mask e (rows : list Row) :
  length (low_conf_mask e rows) = length rows.
Proof. unfold low_conf_mask. by rewrite length_map. Qed.

Lemma low_conf_mask_lookup e (rows : list Row) i r :
  rows !! i = Some r ->
  low_conf_mask e rows !! i
  = Some (Qltb (confidence r) (unknown_threshold (rules e))).
Proof.
  intros H. unfold low_conf_mask.
  change (map ?f rows) with (f <$> rows).
  by rewrite list_lookup_fmap, H.
Qed.

(** [df.loc[mask, col] = values] touches the selected rows only, and
    gives them the values in order. *)
Lemma loc_assign_spec {V} (set : V -> Row -> Row) mask values rows out :
  loc_assign set mask values rows = Ok out ->
  length mask = length rows ->
  length out = length rows
  /\ select_rows mask out = zip_with set values (select_rows mask rows)
  /\ length values = length (select_rows mask rows)
  /\ (forall i (b : bool) (r o : Row),
        mask !! i = Some b -> rows !! i = Some r -> out !! i = Some o ->
        if b then exists v, o = set v r else o = r).
Proof.
  revert mask values out.
  induction rows as [|r rows IH]; intros mask values out.
  - simpl. destruct values; [|done]. intros [= <-] Hlen.
    destruct mask; [|done]. by repeat split.
  - destruct mask as [|b mask]; [done|]. intros H [= Hlen].
    cbn [loc_assign] in H. destruct b.
    + destruct values as [|v values]; [done|].
      destruct (loc_assign set mask values rows) as [rest|] eqn:E;
        [|done].
      simpl in H. injection H as <-.
      destruct (IH _ _ _ E Hlen) as (Hl & Hsel & Hv & Hrow).
      repeat split; simpl.
      * by rewrite Hl.
      * by rewrite Hsel.
      * by rewrite Hv.
      * intros [|i] b0 r0 o; simpl.
        -- intros [= <-] [= <-] [= <-]. eauto.
        -- apply Hrow.
    + destruct (loc_assign set mask values rows) as [rest|] eqn:E;
        [|done].
      simpl in H. injection H as <-.
      destruct (IH _ _ _ E Hlen) as (Hl & Hsel & Hv & Hrow).
      repeat split; simpl.
      * by rewrite Hl.
      * done.
      * done.
      * intros [|i] b0 r0 o; simpl.
        -- by intros [= <-] [= <-] [= <-].
        -- apply Hrow.
Qed.

Lemma loc_fill_spec (set : Row -> Row) mask rows :
  length mask = length rows ->
  length (loc_fill set mask rows) = length rows
  /\ select_rows mask (loc_fill set mask rows)
     = map set (select_rows mask rows)
  /\ (forall i (b : bool) (r o : Row),
        mask !! i = Some b -> rows !! i = Some r ->
        loc_fill set mask rows !! i = Some o ->
        o = if b then set r else r).
Proof.
  revert mask. induction rows as [|r rows IH]; intros [|b mask]; try done.
  intros [= Hlen]. destruct (IH mask Hlen) as (Hl & Hsel & Hrow).
  destruct b; simpl; (repeat split; [by rewrite Hl|by rewrite ?Hsel|]).
  - intros [|i] b0 r0 o; simpl; [by intros [= <-] [= <-] [= <-]|].
    apply Hrow.
  - intros [|i] b0 r0 o; simpl; [by intros [= <-] [= <-] [= <-]|].
    apply Hrow.
Qed.

Lemma map_zip_with_keep {V A} (f : Row -> A) (set : V -> Row -> Row)
    (vs : list V) (rs : list Row) :
  (forall v r, f (set v r) = f r) ->
  length vs = length rs -> map f (zip_with set vs rs) = map f rs.
Proof.
  intros Hf. revert rs.
  induction vs as [|v vs IH]; intros [|r rs]; try done.
  intros [= Hlen]. simpl. by rewrite Hf, IH.
Qed.

Lemma map_zip_with_set {V} (f : Row -> V) (set : V -> Row -> Row)
    (vs : list V) (rs : list Row) :
  (forall v r, f (set v r) = v) ->
  length vs = length rs -> map f (zip_with set vs rs) = vs.
Proof.
  intros Hf. revert rs.
  induction vs as [|v vs IH]; intros [|r rs]; try done.
  intros [= Hlen]. simpl. by rewrite Hf, IH.
Qed.

Lemma length_select_zip_with {V} (set : V -> Row -> Row) vs (rs : list Row) :
  length vs = length rs -> length (zip_with set vs rs) = length rs.
Proof. intros H. rewrite length_zip_with. lia. Qed.

(** The fallback overwrites the masked rows with the model's output and
    leaves every other row as it was. *)
Lemma ml_classify_spec e (rows : list Row) mask out :
  _ml_classify e rows mask = Ok out ->
  length mask = length rows ->
  exists clf X,
    ml_classifier e = Some clf
    /\ transform (vectorizer e) (map narration (select_rows mask rows))
       = Ok X
    /\ predict clf X = Ok (map category (select_rows mask out))
    /\ predict_proba_max clf X = Ok (map confidence (select_rows mask out))
    /\ length out = length rows
    /\ (forall i (b : bool) (r o : Row),
          mask !! i = Some b -> rows !! i = Some r -> out !! i = Some o ->
          narration o = narration r /\ amount o = amount r
          /\ if b then method o = MLBased else o = r).
Proof.
  unfold _ml_classify. intros H Hlen.
  destruct (transform _ _) as [X|] eqn:EX; [simpl in H|done].
  destruct (ml_classifier e) as [clf|]; [|done].
  destruct (predict clf X) as [preds|] eqn:Ep; [simpl in H|done].
  destruct (predict_proba_max clf X) as [probs|] eqn:Eq; [simpl in H|done].
  destruct (loc_assign set_category mask preds rows) as [df1|] eqn:E1;
    [simpl in H|done].
  destruct (loc_assign set_confidence mask probs df1) as [df2|] eqn:E2;
    [simpl in H|done].
  injection H as <-.
  destruct (loc_assign_spec _ _ _ _ _ E1 Hlen) as (L1 & S1 & V1 & R1).
  assert (length mask = length df1) as Hlen1 by congruence.
  destruct (loc_assign_spec _ _ _ _ _ E2 Hlen1) as (L2 & S2 & V2 & R2).
  assert (length mask = length df2) as Hlen2 by congruence.
  destruct (loc_fill_spec (set_method MLBased) mask df2 Hlen2)
    as (L3 & S3 & R3).
  exists clf, X. do 2 (split; [done|]). split; [|split; [|split]].
  - rewrite S3, map_map. simpl.
    change (map (fun x => category x) (select_rows mask df2))
      with (map category (select_rows mask df2)).
    rewrite S2, (map_zip_with_keep category set_confidence) by done.
    rewrite S1, (map_zip_with_set category set_category) by done.
    exact Ep.
  - rewrite S3, map_map. simpl.
    change (map (fun x => confidence x) (select_rows mask df2))
      with (map confidence (select_rows mask df2)).
    rewrite S2, (map_zip_with_set confidence set_confidence) by done.
    exact Eq.
  - congruence.
  - intros i b r o Hb Hr Ho.
    destruct (lookup_lt_is_Some_2 df1 i) as [r1 Hr1].
    { rewrite L1. by eapply lookup_lt_Some. }
    destruct (lookup_lt_is_Some_2 df2 i) as [r2 Hr2].
    { rewrite L2, L1. by eapply lookup_lt_Some. }
    specialize (R1 i b r r1 Hb Hr Hr1).
    specialize (R2 i b r1 r2 Hb Hr1 Hr2).
    specialize (R3 i b r2 o Hb Hr2 Ho).
    destruct b.
    + destruct R1 as [c ->], R2 as [q ->]. by subst o.
    + by subst.
Qed.



Lemma rule_pass_Ok e df rows :
  mapM (rule_row (rules e)) df = Ok rows ->
  Forall2 (rule_based_result (rules e)) df rows.
Proof.
  intros H%mapM_Ok. eapply Forall2_impl; [exact H|].
  intros tx r. apply rule_row_Ok.
Qed.



(** [train_ml_model] on the frame without columns, and on any other
    frame. *)
Lemma train_ml_model_nil e :
  train_ml_model e [] = (e, Raise (KeyError "category")).
Proof. reflexivity. Qed.

Lemma train_ml_model_rows e (rows : list Row) :
  rows <> [] ->
  train_ml_model e rows =
  if (length (labelled_rows rows) <? 10)%nat
  then (e, Ok "Not enough labeled data for training")
  else
    let fitted :=
      fit_transform (vectorizer e) (map narration (labelled_rows rows)) in
    let e1 := with_vectorizer (fst fitted) e in
    match snd fitted with
    | Raise ex => (e1, Raise ex)
    | Ok X =>
        let trained :=
          forest_fit new_forest X (map category (labelled_rows rows))
            (sample_weights (map amount (labelled_rows rows))) in
        let e2 := with_classifier (fst trained) e1 in
        match snd trained with
        | Raise ex => (e2, Raise ex)
        | Ok _ =>
            (e2, Ok ("Model trained on "
                     +:+ pretty (length (labelled_rows rows))
                     +:+ " samples"))
        end
    end.
Proof. by destruct rows. Qed.


(** C4 (what the code does). With five or more texts
    [discover_new_categories] calls [fit_transform] on the engine's own
    vectorizer: the vectorizer the fallback reads afterwards is the one
    refitted on the unknown texts; the classifier and the rules are left
    alone. *)
Theorem discover_refits_vectorizer e (unknown_texts : list string) :
  (5 <= length unknown_texts)%nat ->
  let e' := fst (discover_new_categories e unknown_texts) in
  vectorizer e' = fst (fit_transform (vectorizer e) unknown_texts)
  /\ ml_classifier e' = ml_classifier e
  /\ rules e' = rules e.
Proof.
  intros H. unfold discover_new_categories.
  destruct (length unknown_texts <? 5)%nat eqn:E.
  { apply Nat.ltb_lt in E. lia. }
  by destruct (snd (fit_transform (vectorizer e) unknown_texts)).
Qed.

Lemma to_dict_needs_review (r : Row) : to_dict r !! "needs_review" = None.
Proof.
  unfold to_dict. rewrite !lookup_insert_ne by done. apply lookup_empty.
Qed.

(** C3 (what the code does). The rows [classify_batch] returns have the
    columns narration, amount, category, confidence and method; none
    carries a needs_review flag, with or without the fallback. *)
Theorem classify_batch_no_review_flag e df out :
  classify_batch e df = Ok out ->
  Forall (fun r => to_dict r !! "needs_review" = None
                   /\ dom (to_dict r)
                      = list_to_set ["narration"; "amount"; "category";
                                     "confidence"; "method"]) out.
Proof.
  intros _. apply Forall_forall. intros r _.
  split; [apply to_dict_needs_review|].
  unfold to_dict. rewrite !dom_insert_L, dom_empty_L. simpl.
  set_solver.
Qed.

End EngineFacts.

Section EngineWitnesses.
Import Double.




Lemma discover_refits_vectorizer_witness :
  (5 <= length unknown_texts)%nat
  /\ vectorizer (fst (discover_new_categories trained unknown_texts))
     = fst (fit_transform (vectorizer trained) unknown_texts)
  /\ vectorizer (fst (discover_new_categories trained unknown_texts))
     <> vectorizer trained.
Proof.
  assert (5 <= length unknown_texts)%nat as H by (vm_compute; lia).
  split; [exact H|].
  destruct (discover_refits_vectorizer trained unknown_texts H)
    as (Hv & _ & _).
  split; [exact Hv|].
  rewrite Hv. vm_compute. discriminate.
Defined.

(** After a discovery run the trained engine no longer classifies the
    batch it classified before. *)
Example discover_breaks_fallback :
  (exists out,
     classify_batch trained batch = Ok out
     /\ map method out = [RuleBased; RuleBased; MLBased; RuleBased])
  /\ classify_batch (fst (discover_new_categories trained unknown_texts))
       batch
     = Raise (ValueError "X has a different number of features").
Proof.
  split; [eexists; split|]; vm_compute; reflexivity.
Qed.

Lemma classify_batch_no_review_flag_witness :
  exists out,
    classify_batch trained batch = Ok out
    /\ length out = 4%nat
    /\ Forall (fun r => to_dict r !! "needs_review" = None) out.
Proof.
  assert (exists out, classify_batch trained batch = Ok out
                      /\ length out = 4%nat) as (out & H & Hlen)
    by (eexists; split; vm_compute; reflexivity).
  exists out. split; [exact H|]. split; [exact Hlen|].
  eapply Forall_impl; [exact (classify_batch_no_review_flag _ _ _ H)|].
  by intros r [? _].
Defined.


End EngineWitnesses.

Section DiscoveryFacts.
Context `{SK : Sklearn}.

Lemma category_name_inj x y : category_name x = category_name y -> x = y.
Proof.
  unfold category_name. intros H%(inj (String.app _)).
  by apply (inj pretty).
Qed.

Lemma select_rows_nil {A} mask : select_rows mask (@nil A) = [].
Proof. by destruct mask as [|[] ?]. Qed.

(** The members of a cluster are the texts at the positions carrying its
    label, in input order. *)
Lemma cluster_texts_select (texts : list string) i labels label members :
  cluster_texts texts i labels label = Ok members ->
  members
  = select_rows (map (fun l => (l =? label)%Z) labels) (drop i texts).
Proof.
  revert i members. induction labels as [|l labels IH]; intros i members.
  - by intros [= <-].
  - simpl. destruct (l =? label)%Z.
    + destruct (texts !! i) as [t|] eqn:Et; [|done].
      destruct (cluster_texts texts (S i) labels label) as [rest|] eqn:E;
        [|done].
      simpl. intros [= <-]. rewrite (drop_S _ _ _ Et).
      by rewrite (IH _ _ E).
    + intros H. rewrite (IH _ _ H).
      destruct (texts !! i) as [t|] eqn:Et.
      * by rewrite (drop_S _ _ _ Et).
      * apply lookup_ge_None in Et.
        rewrite !drop_ge by lia. by rewrite select_rows_nil.
Qed.

Lemma discover_loop_spec (texts : list string) labels todo acc m :
  discover_loop texts labels todo acc = Ok m ->
  forall name (v : list string),
    m !! name = Some v <->
    (exists label,
       label ∈ todo /\ label <> (-1)%Z /\ name = category_name label
       /\ cluster_texts texts 0 labels label = Ok v)
    \/ (acc !! name = Some v
        /\ forall label, label ∈ todo -> label <> (-1)%Z ->
                         name <> category_name label).
Proof.
  revert acc. induction todo as [|label todo IH]; intros acc; simpl.
  - intros [= <-] name v. split.
    + intros H. right. split; [done|]. by intros ? ?%not_elem_of_nil.
    + intros [(? & ?%not_elem_of_nil & _)|[H _]]; done.
  - destruct (label =? -1)%Z eqn:Enoise.
    + apply Z.eqb_eq in Enoise. intros H name v.
      rewrite (IH _ H name v). split.
      * intros [(l & Hl & ?)|[Hacc Hno]].
        -- left. exists l. split; [by apply list_elem_of_further|done].
        -- right. split; [done|].
           intros l [->|Hl]%elem_of_cons Hne; [done|by apply Hno].
      * intros [(l & [->|Hl]%elem_of_cons & Hne & ?)|[Hacc Hno]].
        -- done.
        -- left. by exists l.
        -- right. split; [done|]. intros l Hl. apply Hno.
           by apply list_elem_of_further.
    + apply Z.eqb_neq in Enoise.
      destruct (cluster_texts texts 0 labels label) as [members|] eqn:Ec;
        [|done].
      simpl. intros H name v. rewrite (IH _ H name v). split.
      * intros [(l & Hl & ?)|[Hacc Hno]].
        -- left. exists l. split; [by apply list_elem_of_further|done].
        -- destruct (decide (name = category_name label)) as [->|Hne].
           ++ rewrite lookup_insert_eq in Hacc. injection Hacc as <-.
              left. exists label. by split; [apply list_elem_of_here|].
           ++ rewrite lookup_insert_ne in Hacc by done.
              right. split; [done|].
              intros l [->|Hl]%elem_of_cons ?; [done|by apply Hno].
      * intros [(l & [->|Hl]%elem_of_cons & Hne & -> & Hv)|[Hacc Hno]].
        -- destruct (decide (label ∈ todo)) as [Hin|Hnotin].
           ++ left. by exists label.
           ++ right. rewrite lookup_insert_eq. split; [congruence|].
              intros l Hl _ Heq%category_name_inj. by subst.
        -- left. by exists l.
        -- right.
           assert (name <> category_name label) as Hne
             by (apply Hno; [apply list_elem_of_here|done]).
           rewrite lookup_insert_ne by done. split; [done|].
           intros l Hl. apply Hno. by apply list_elem_of_further.
Qed.

(** C9 (what the code does). The mapping returned by
    [discover_new_categories] has one key "NewCategory_<label>" for each
    cluster label other than -1, and the value stored under it is the
    list of the cluster's texts, nothing else: no size and no induced
    keywords are computed. *)
Theorem discover_new_categories_mapping e (unknown_texts : list string)
    (m : gmap string (list string)) :
  snd (discover_new_categories e unknown_texts) = Ok m ->
  ((length unknown_texts < 5)%nat /\ m = ∅)
  \/ exists X,
       snd (fit_transform (vectorizer e) unknown_texts) = Ok X
       /\ forall name (members : list string),
            m !! name = Some members <->
            exists label,
              label ∈ dbscan_fit_predict X /\ label <> (-1)%Z
              /\ name = category_name label
              /\ cluster_texts unknown_texts 0 (dbscan_fit_predict X) label
                 = Ok members
              /\ members
                 = select_rows
                     (map (fun l => (l =? label)%Z) (dbscan_fit_predict X))
                     unknown_texts.
Proof.
  unfold discover_new_categories.
  destruct (length unknown_texts <? 5)%nat eqn:E.
  { apply Nat.ltb_lt in E. simpl. intros [= <-]. by left. }
  destruct (snd (fit_transform (vectorizer e) unknown_texts))
    as [X|] eqn:EX; [|done].
  simpl. intros H. right. exists X. split; [done|].
  intros name members.
  rewrite (discover_loop_spec _ _ _ _ _ H name members). split.
  - intros [(l & Hl & Hne & -> & Hc)|[Hacc _]].
    + rewrite elem_of_remove_dups in Hl.
      exists l. repeat split; try done.
      by rewrite (cluster_texts_select _ _ _ _ _ Hc).
    + by rewrite lookup_empty in Hacc.
  - intros (l & Hl & Hne & -> & Hc & _). left. exists l.
    by rewrite elem_of_remove_dups.
Qed.

End DiscoveryFacts.

Section DiscoveryWitness.
Import Double.

Lemma discover_new_categories_mapping_witness :
  exists m,
    snd (discover_new_categories trained unknown_texts) = Ok m
    /\ m !! "NewCategory_0"
       = Some ["netflix subscription monthly";
               "netflix subscription monthly"]
    /\ exists label,
         label <> (-1)%Z /\ "NewCategory_0" = category_name label.
Proof.
  assert (exists m,
            snd (discover_new_categories trained unknown_texts) = Ok m
            /\ m !! "NewCategory_0"
               = Some ["netflix subscription monthly";
                       "netflix subscription monthly"])
    as (m & H & Hm) by (eexists; split; vm_compute; reflexivity).
  exists m. split; [exact H|]. split; [exact Hm|].
  destruct (discover_new_categories_mapping trained unknown_texts m H)
    as [[Hlt _]|(X & _ & Hiff)].
  - vm_compute in Hlt. lia.
  - destruct (proj1 (Hiff _ _) Hm) as (label & _ & Hne & Hname & _).
    exists label. split; [exact Hne | exact Hname].
Defined.

End DiscoveryWitness.

(** * Further properties *)

(** ** More facts about the string operations *)

Module StrMore.
Import Str StrFacts.

Lemma app_assoc a b c : (a +:+ b) +:+ c = a +:+ b +:+ c.
Proof.
  induction a as [|x a IH]; [done|]. rewrite !app_cons. by rewrite IH.
Qed.

Lemma length_split_cons c s :
  length (split (String c s)) =
  if isspace c then length (split s)
  else if starts_word s then length (split s)
  else S (length (split s)).
Proof.
  rewrite split_cons. destruct (isspace c); [done|].
  destruct (starts_word s) eqn:Hs; [|done].
  by destruct (split_starts_word s Hs) as (w & ws & ->).
Qed.

Lemma starts_word_lower s : starts_word (lower s) = starts_word s.
Proof.
  destruct s as [|c s]; [done|]. simpl. by rewrite isspace_lower_char.
Qed.

Lemma length_split_lower s : length (split (lower s)) = length (split s).
Proof.
  induction s as [|c s IH]; [done|].
  change (lower (String c s)) with (String (lower_char c) (lower s)).
  rewrite !length_split_cons, isspace_lower_char, starts_word_lower.
  by rewrite IH.
Qed.

Lemma lower_char_idem c : lower_char (lower_char c) = lower_char c.
Proof. by destruct c as [[] [] [] [] [] [] [] []]. Qed.

Lemma lower_idem s : lower (lower s) = lower s.
Proof.
  induction s as [|c s IH]; [done|]. simpl. by rewrite lower_char_idem, IH.
Qed.

(** A string occurs in every text built around it. *)
Lemma contains_middle sub a b : contains sub (a +:+ sub +:+ b) = true.
Proof.
  rewrite <- app_assoc. apply contains_app_l, contains_app_r.
Qed.

End StrMore.

(** ** The keyword matcher: further properties *)

Section MatcherExtras.
Implicit Types (rules : RuleSet) (text : string).

Lemma word_count_lower_eq text text' :
  Str.lower text = Str.lower text' -> word_count text = word_count text'.
Proof.
  intros H. unfold word_count.
  rewrite <- (StrMore.length_split_lower text), H.
  apply StrMore.length_split_lower.
Qed.

(** X1. Matching ignores letter case: two texts with the same lowercase
    form get the same result, and so does a text and its lowercase form. *)
Theorem keyword_match_case_insensitive rules text text' :
  Str.lower text = Str.lower text' ->
  keyword_match rules text = keyword_match rules text'
  /\ keyword_match rules (Str.lower text) = keyword_match rules text.
Proof.
  intros H.
  assert (forall t t', Str.lower t = Str.lower t' ->
                       keyword_match rules t = keyword_match rules t') as Hk.
  { intros t t' Ht. unfold keyword_match.
    by rewrite Ht, (word_count_lower_eq t t' Ht). }
  split; [by apply Hk|]. apply Hk, StrMore.lower_idem.
Qed.

Lemma keyword_match_case_insensitive_witness :
  Str.lower "CVS Pharmacy" = Str.lower "cvs PHARMACY"
  /\ keyword_match example_rules "CVS Pharmacy"
     = keyword_match example_rules "cvs PHARMACY".
Proof.
  assert (Str.lower "CVS Pharmacy" = Str.lower "cvs PHARMACY") as H
    by reflexivity.
  split; [exact H|].
  exact (proj1 (keyword_match_case_insensitive example_rules _ _ H)).
Defined.

(** X2. [keyword_match] raises nothing but [ZeroDivisionError], and that
    exactly when some keyword occurs in a text that has no word; this
    needs a keyword made of whitespace only (or empty). *)
Theorem keyword_match_raises rules text ex :
  (keyword_match rules text = Raise ex <->
   ex = ZeroDivisionError /\ some_keyword_occurs rules text
   /\ word_count text = 0%nat)
  /\ (keyword_match rules text = Raise ex -> ~ keywords_nonblank rules).
Proof.
  assert (keyword_match rules text = Raise ex ->
          ex = ZeroDivisionError /\ some_keyword_occurs rules text
          /\ word_count text = 0%nat) as Hraise.
  { unfold keyword_match.
    destruct (build_matches _ _) as [|m ms] eqn:E; [done|].
    destruct (word_count text =? 0)%nat eqn:E0; [|done].
    intros [= <-]. apply Nat.eqb_eq in E0. repeat split; [|done].
    apply occurs_in_spec. destruct (occurs_in rules text) eqn:Eo; [done|].
    apply occurs_in_false in Eo.
    by rewrite (build_matches_nil rules text Eo) in E. }
  split; [split; [done|]|].
  - intros (-> & Hocc & Hwc).
    destruct (build_matches_cons rules text Hocc) as (m & ms & Hm).
    unfold keyword_match. rewrite Hm, Hwc. done.
  - intros (_ & Hocc & Hwc)%Hraise Hnb.
    pose proof (occurs_word_count rules text Hnb Hocc). lia.
Qed.

Lemma keyword_match_raises_witness :
  keyword_match Scenario.blank_rules "  " = Raise ZeroDivisionError
  /\ some_keyword_occurs Scenario.blank_rules "  "
  /\ ~ keywords_nonblank Scenario.blank_rules.
Proof.
  assert (keyword_match Scenario.blank_rules "  " = Raise ZeroDivisionError)
    as H by reflexivity.
  split; [exact H|].
  destruct (keyword_match_raises Scenario.blank_rules "  " ZeroDivisionError)
    as [Hiff Hnb].
  split; [exact (proj1 (proj2 (proj1 Hiff H))) | exact (Hnb H)].
Defined.

Lemma pos_b_spec rules : pos_b rules = true -> weights_pos rules.
Proof.
  unfold pos_b. rewrite forallb_forall. intros H c info Hc.
  apply Qltb_lt, (H (c, info)). by apply list_elem_of_In.
Qed.

Lemma score_pos info t :
  (0 < get_weight info)%Q -> (0 < keyword_hits (keywords info) t)%nat ->
  (0 < category_score info t)%Q.
Proof.
  intros Hw Hh. unfold category_score.
  apply Qmult_lt_0_compat; [|done]. by apply inject_nat_pos.
Qed.

(** X3. A result is one of two kinds: some keyword occurs, the text has
    a word, the category is a declared one with a keyword in the text and
    the confidence is the winning score over the word count, a score that
    is positive when every weight is; or no keyword occurs and the result
    is ("Unknown", 0). No category is returned for a text that has none
    of its keywords. *)
Theorem keyword_match_dichotomy rules text c q :
  keyword_match rules text = Ok (c, q) ->
  (some_keyword_occurs rules text
   /\ (0 < word_count text)%nat
   /\ q = (best_score rules text
           / inject_Z (Z.of_nat (word_count text)))%Q
   /\ (weights_pos rules -> (0 < best_score rules text)%Q)
   /\ exists info,
        (c, info) ∈ categories rules
        /\ (0 < keyword_hits (keywords info) (Str.lower text))%nat)
  \/ (~ some_keyword_occurs rules text /\ c = "Unknown" /\ q = 0%Q).
Proof.
  intros Hk.
  apply keyword_match_inv in Hk
    as [(E & -> & ->)|(m & ms & E & Hwc & -> & ->)].
  - right. split; [|done]. intros Hocc.
    destruct (build_matches_cons rules text Hocc) as (m & ms & Hm).
    congruence.
  - left. destruct (py_max_category rules text m ms E)
      as (info & Hin & Hh & Hs).
    split; [|split; [exact Hwc|split; [|split]]].
    + pose proof Hh as Hh'.
      apply keyword_hits_pos in Hh' as (kw & Hkw & Hocc).
      by exists (fst (py_max m ms)), info, kw.
    + unfold best_score. by rewrite E.
    + intros Hpos. unfold best_score. rewrite E, Hs.
      apply score_pos; [|done]. by apply (Hpos _ _ Hin).
    + by exists info.
Qed.

Lemma keyword_match_dichotomy_witness :
  keyword_match example_rules "city doctor"
  = Ok ("Healthcare", ((3 # 2) / 2)%Q)
  /\ some_keyword_occurs example_rules "city doctor"
  /\ (0 < best_score example_rules "city doctor")%Q.
Proof.
  assert (weights_pos example_rules) as Hpos
    by (apply pos_b_spec; reflexivity).
  assert (keyword_match example_rules "city doctor"
          = Ok ("Healthcare", ((3 # 2) / 2)%Q)) as Hk by reflexivity.
  split; [exact Hk|].
  destruct (keyword_match_dichotomy _ _ _ _ Hk)
    as [(Hocc & _ & _ & Hs & _)|(_ & Hc & _)]; [|discriminate Hc].
  split; [exact Hocc | exact (Hs Hpos)].
Defined.

(** X4. A keyword counts wherever it occurs in the lowercased text, at
    any place and also inside a longer word: the text then matches, and
    the winning score is at least the whole weight of the keyword's
    category. *)
Theorem keyword_match_embedded_keyword rules c info kw text a b :
  (c, info) ∈ categories rules -> kw ∈ keywords info ->
  Str.lower text = a +:+ kw +:+ b -> (0 <= get_weight info)%Q ->
  some_keyword_occurs rules text
  /\ (get_weight info <= best_score rules text)%Q.
Proof.
  intros Hin Hkw Hw Hnn.
  assert (Str.contains kw (Str.lower text) = true) as Hocc.
  { rewrite Hw. apply StrMore.contains_middle. }
  split; [by exists c, info, kw|].
  assert (0 < keyword_hits (keywords info) (Str.lower text))%nat
    as Hh by (apply keyword_hits_pos; eauto).
  eapply Qle_trans; [|by apply (best_score_ge _ _ c info)].
  unfold category_score.
  rewrite <- (Qmult_1_l (get_weight info)) at 1.
  apply Qmult_le_compat_r; [|done].
  change 1%Q with (inject_Z 1). rewrite <- Zle_Qle. lia.
Qed.

Lemma keyword_match_embedded_keyword_witness :
  Str.lower "megaWALMARTstore" = "mega" +:+ "walmart" +:+ "store"
  /\ some_keyword_occurs example_rules "megaWALMARTstore"
  /\ keyword_match example_rules "megaWALMARTstore"
     = Ok ("Groceries", (1 / 1)%Q).
Proof.
  assert (Str.lower "megaWALMARTstore" = "mega" +:+ "walmart" +:+ "store")
    as Hl by reflexivity.
  split; [exact Hl|]. split; [|reflexivity].
  apply (keyword_match_embedded_keyword example_rules "Groceries"
           {| keywords := ["walmart"; "grocery"]; weight := None |}
           "walmart" "megaWALMARTstore" "mega" "store").
  - apply list_elem_of_further, list_elem_of_here.
  - apply list_elem_of_here.
  - exact Hl.
  - vm_compute. discriminate.
Defined.

Lemma py_max_first best rest :
  exists l1 l2,
    best :: rest = l1 ++ py_max best rest :: l2
    /\ Forall (fun m => (snd m < snd (py_max best rest))%Q) l1
    /\ Forall (fun m => (snd m <= snd (py_max best rest))%Q) l2.
Proof.
  revert best. induction rest as [|m rest IH]; intros best.
  - exists [], []. by repeat split.
  - simpl. destruct (Qltb (snd best) (snd m)) eqn:E.
    + apply Qltb_lt in E.
      destruct (IH m) as (l1 & l2 & Heq & H1 & H2).
      exists (best :: l1), l2. split; [simpl; congruence|].
      split; [|done]. constructor; [|done].
      eapply Qlt_le_trans; [exact E|apply py_max_ge_best].
    + apply Qltb_ge in E.
      destruct (IH best) as (l1 & l2 & Heq & H1 & H2).
      destruct l1 as [|b l1].
      * injection Heq as Hb Hrest.
        exists [], (m :: l2). split; [simpl; congruence|].
        split; [done|]. constructor; [|done]. by rewrite <- Hb.
      * injection Heq as <- Hrest. apply Forall_cons in H1 as [Hb H1].
        exists (best :: m :: l1), l2. split; [simpl; congruence|].
        split; [|done]. constructor; [done|].
        constructor; [|done]. eapply Qle_lt_trans; [exact E|exact Hb].
Qed.

Lemma build_matches_app cats1 cats2 t :
  build_matches (cats1 ++ cats2) t
  = build_matches cats1 t ++ build_matches cats2 t.
Proof.
  induction cats1 as [|[c info] cats1 IH]; [done|]. simpl.
  destruct (0 <? keyword_hits (keywords info) t)%nat; [|done].
  by rewrite IH.
Qed.

Lemma build_matches_keys cats t c :
  c ∈ (build_matches cats t).*1 -> c ∈ cats.*1.
Proof.
  intros ([c' s] & -> & Hin)%list_elem_of_fmap.
  apply elem_of_build_matches in Hin as (info & Hin & _).
  apply list_elem_of_fmap. by exists (c', info).
Qed.

Lemma build_matches_NoDup cats t :
  NoDup cats.*1 -> NoDup (build_matches cats t).*1.
Proof.
  induction cats as [|[c info] cats IH]; [done|]. simpl.
  intros [Hnot Hnd]%NoDup_cons.
  destruct (0 <? keyword_hits (keywords info) t)%nat; [|by apply IH].
  simpl. apply NoDup_cons. split; [|by apply IH].
  intros Hin. by apply Hnot, (build_matches_keys cats t).
Qed.

Lemma split_at_key {A} (l1 l2 l1' l2' : list (string * A)) x x' :
  NoDup (l1 ++ x :: l2).*1 ->
  l1 ++ x :: l2 = l1' ++ x' :: l2' -> fst x = fst x' ->
  l1 = l1' /\ l2 = l2'.
Proof.
  revert l1'. induction l1 as [|y l1 IH]; intros l1' Hnd Heq Hk.
  - destruct l1' as [|y' l1']; simpl in *.
    + by injection Heq as _ ->.
    + injection Heq as -> ->. apply NoDup_cons in Hnd as [Hnot _].
      destruct Hnot. rewrite Hk, fmap_app, fmap_cons.
      apply elem_of_app. right. apply list_elem_of_here.
  - destruct l1' as [|y' l1']; simpl in *.
    + injection Heq as -> <-. apply NoDup_cons in Hnd as [Hnot _].
      destruct Hnot. rewrite <- Hk, fmap_app, fmap_cons.
      apply elem_of_app. right. apply list_elem_of_here.
    + injection Heq as -> Heq. apply NoDup_cons in Hnd as [_ Hnd].
      destruct (IH l1' Hnd Heq Hk) as [-> ->]. done.
Qed.

(** X5. Ties go to the category declared first: every category declared
    before the winner that has a keyword in the text scores strictly
    less, every one declared after it scores at most as much. *)
Theorem keyword_match_first_wins rules text before c info after q :
  categories rules = before ++ (c, info) :: after ->
  NoDup (categories rules).*1 ->
  keyword_match rules text = Ok (c, q) ->
  (forall c' info',
     (c', info') ∈ before ->
     (0 < keyword_hits (keywords info') (Str.lower text))%nat ->
     (category_score info' (Str.lower text)
      < category_score info (Str.lower text))%Q)
  /\ (forall c' info',
        (c', info') ∈ after ->
        (0 < keyword_hits (keywords info') (Str.lower text))%nat ->
        (category_score info' (Str.lower text)
         <= category_score info (Str.lower text))%Q).
Proof.
  intros Hcats Hnd Hk.
  apply keyword_match_inv in Hk
    as [(E & _ & _)|(m & ms & E & _ & Hc & _)].
  - rewrite Hcats, build_matches_app in E.
    apply app_eq_nil in E as [Eb Ea]. simpl in Ea.
    destruct (0 <? keyword_hits (keywords info) (Str.lower text))%nat;
      [done|].
    split; intros c' info' Hin Hh.
    + assert ((c', category_score info' (Str.lower text))
                ∈ build_matches before (Str.lower text)) as Hm
        by (apply elem_of_build_matches; eauto).
      rewrite Eb in Hm. by apply not_elem_of_nil in Hm.
    + assert ((c', category_score info' (Str.lower text))
                ∈ build_matches after (Str.lower text)) as Hm
        by (apply elem_of_build_matches; eauto).
      rewrite Ea in Hm. by apply not_elem_of_nil in Hm.
  - destruct (py_max_category rules text m ms E) as (info0 & Hin0 & Hh0 & Hs).
    rewrite <- Hc in Hin0.
    assert (info0 = info) as ->.
    { eapply (assoc_unique (categories rules) c); [done|done|].
      rewrite Hcats. apply elem_of_app. right. apply list_elem_of_here. }
    destruct (py_max_first m ms) as (l1 & l2 & Hsplit & H1 & H2).
    pose proof (build_matches_NoDup _ (Str.lower text) Hnd) as Hnd'.
    rewrite E in Hnd'.
    rewrite Hcats, build_matches_app in E. simpl in E.
    apply Nat.ltb_lt in Hh0. rewrite Hh0 in E. rewrite <- E in Hsplit.
    rewrite <- E in Hnd'.
    destruct (split_at_key _ _ _ _ _ _ Hnd' Hsplit) as [<- <-];
      [by rewrite <- Hc|].
    rewrite Hs in H1, H2. rewrite Forall_forall in H1, H2.
    split; intros c' info' Hin Hh.
    + apply (H1 (c', category_score info' (Str.lower text))).
      apply elem_of_build_matches. eauto.
    + apply (H2 (c', category_score info' (Str.lower text))).
      apply elem_of_build_matches. eauto.
Qed.

Lemma keyword_match_first_wins_witness :
  keyword_match Scenario.tie_rules "pharmacy walmart"
  = Ok ("Groceries", (1 / 2)%Q)
  /\ (category_score {| keywords := ["pharmacy"]; weight := None |}
        (Str.lower "pharmacy walmart")
      <= category_score {| keywords := ["walmart"]; weight := None |}
           (Str.lower "pharmacy walmart"))%Q.
Proof.
  assert (keyword_match Scenario.tie_rules "pharmacy walmart"
          = Ok ("Groceries", (1 / 2)%Q)) as Hk by reflexivity.
  split; [exact Hk|].
  assert (NoDup (categories Scenario.tie_rules).*1) as Hnd
    by (apply (bool_decide_unpack _); vm_compute; exact I).
  destruct (keyword_match_first_wins Scenario.tie_rules "pharmacy walmart"
              [] "Groceries" {| keywords := ["walmart"]; weight := None |}
              [("Healthcare", {| keywords := ["pharmacy"]; weight := None |})]
              _ eq_refl Hnd Hk) as [_ Hafter].
  apply (Hafter "Healthcare"); [apply list_elem_of_here|].
  vm_compute. lia.
Defined.

End MatcherExtras.

(** ** classify_batch: further properties *)

Section BatchExtras.
Context `{SK : Sklearn}.
Implicit Types (e : Engine) (df : list Transaction).

Lemma keyword_match_raise_zero rs text ex :
  keyword_match rs text = Raise ex -> ex = ZeroDivisionError.
Proof.
  unfold keyword_match. destruct (build_matches _ _); [done|].
  destruct (word_count text =? 0)%nat; [|done]. by intros [= <-].
Qed.

Lemma mapM_raise {A B} (f : A -> result B) l a ex0 :
  a ∈ l -> (exists ex, f a = Raise ex) ->
  (forall a' ex, f a' = Raise ex -> ex = ex0) ->
  mapM f l = Raise ex0.
Proof.
  intros Hin [ex Ha] Hall. induction l as [|x l IH]; simpl.
  - by apply not_elem_of_nil in Hin.
  - destruct (f x) as [b|ex'] eqn:Ex; simpl.
    + apply elem_of_cons in Hin as [->|Hin]; [congruence|].
      by rewrite (IH Hin).
    + by rewrite (Hall x ex' Ex).
Qed.

Lemma classify_batch_rows e df out :
  classify_batch e df = Ok out ->
  exists rows,
    mapM (rule_row (rules e)) df = Ok rows
    /\ length out = length rows
    /\ forall i (r o : Row),
         rows !! i = Some r -> out !! i = Some o ->
         narration o = narration r /\ amount o = amount r.
Proof.
  unfold classify_batch.
  destruct (mapM (rule_row (rules e)) df) as [rows|] eqn:Erows; [|done].
  simpl. intros H. exists rows. split; [done|].
  assert (out = rows ->
          length out = length rows
          /\ forall i (r o : Row),
               rows !! i = Some r -> out !! i = Some o ->
               narration o = narration r /\ amount o = amount r) as Hsame.
  { intros ->. split; [done|]. intros i r o Hr Ho. by simplify_eq. }
  destruct (ml_classifier e); [|apply Hsame; congruence].
  destruct rows as [|r0 rows']; [done|].
  destruct (0 <? mask_sum _)%nat; [|apply Hsame; congruence].
  destruct (ml_classify_spec e _ _ out H (length_low_conf_mask e _))
    as (_ & _ & _ & _ & _ & _ & Hlen & Hrow).
  split; [done|]. intros i r o Hr Ho.
  destruct (Hrow i _ r o (low_conf_mask_lookup e _ i r Hr) Hr Ho)
    as (? & ? & _).
  done.
Qed.

(** X7. [classify_batch] returns one row per input record, in input
    order, with the narration and the amount of the record unchanged,
    whether or not the fallback rewrote the row. *)
Theorem classify_batch_passes_through e df out :
  classify_batch e df = Ok out ->
  length out = length df
  /\ map narration out = map tx_narration df
  /\ map amount out = map tx_amount df.
Proof.
  intros (rows & Hrows%rule_pass_Ok & Hlen & Hrow)%classify_batch_rows.
  pose proof (Forall2_length _ _ _ Hrows) as Hlen'.
  assert (Forall2 (fun tx o => narration o = tx_narration tx
                               /\ amount o = tx_amount tx) df out) as HF.
  { apply Forall2_same_length_lookup_2; [congruence|].
    intros i tx o Htx Ho.
    destruct (Forall2_lookup_l _ _ _ _ _ Hrows Htx) as (r & Hr & Hres).
    destruct (Hrow i r o Hr Ho) as [-> ->].
    destruct Hres as (_ & -> & -> & _). done. }
  split; [congruence|]. clear -HF.
  induction HF as [|tx o df out [Hn Ha] _ [IHn IHa]]; [done|].
  simpl. by rewrite Hn, Ha, IHn, IHa.
Qed.

(** X8. On a frame without rows an engine without a model returns the
    empty frame; an engine with a model raises KeyError('confidence'),
    because the empty frame has no such column. An empty result comes from
    an empty input only. *)
Theorem classify_batch_empty e df :
  (df = [] -> ml_classifier e = None -> classify_batch e df = Ok [])
  /\ (df = [] -> is_Some (ml_classifier e) ->
      classify_batch e df = Raise (KeyError "confidence"))
  /\ (classify_batch e df = Ok [] -> df = [] /\ ml_classifier e = None).
Proof.
  split; [|split].
  - intros -> Hnone. unfold classify_batch. simpl. by rewrite Hnone.
  - intros -> [clf Hclf]. unfold classify_batch. simpl. by rewrite Hclf.
  - intros H.
    assert (df = []) as ->.
    { destruct (classify_batch_rows e df [] H) as (rows & Hrows & Hlen & _).
      apply rule_pass_Ok, Forall2_length in Hrows.
      apply length_zero_iff_nil. simpl in Hlen. lia. }
    split; [done|]. unfold classify_batch in H. simpl in H.
    by destruct (ml_classifier e).
Qed.

Lemma mask_sum_none e (rows : list Row) :
  Forall (fun r => (unknown_threshold (rules e) <= confidence r)%Q) rows ->
  mask_sum (low_conf_mask e rows) = 0%nat.
Proof.
  unfold mask_sum, low_conf_mask.
  induction 1 as [|r rows Hr _ IH]; [done|]. simpl.
  apply Qltb_ge in Hr. by rewrite Hr.
Qed.

(** X9. When every record's rule-based confidence reaches
    [unknown_threshold] the fallback is not consulted at all: whatever
    state the vectorizer and the classifier are in, the batch is the
    rule-based pass. *)
Theorem classify_batch_no_low_rows e df :
  df <> [] ->
  (forall tx, tx ∈ df ->
     exists c q,
       keyword_match (rules e) (tx_narration tx) = Ok (c, q)
       /\ (unknown_threshold (rules e) <= q)%Q) ->
  exists out,
    classify_batch e df = Ok out
    /\ Forall2 (rule_based_result (rules e)) df out.
Proof.
  intros Hne Hall.
  destruct (mapM_total (rule_row (rules e)) df) as (rows & Hrows).
  { intros tx Htx. destruct (Hall tx Htx) as (c & q & Hk & _).
    unfold rule_row. rewrite Hk. simpl. eauto. }
  pose proof (rule_pass_Ok e df rows Hrows) as HF.
  exists rows. split; [|done].
  unfold classify_batch. rewrite Hrows. simpl.
  destruct (ml_classifier e); [|done].
  destruct rows as [|r0 rows'].
  { apply Forall2_length in HF. by destruct df. }
  rewrite mask_sum_none; [done|].
  apply Forall_forall. intros r Hr.
  apply list_elem_of_lookup in Hr as [i Hr].
  destruct (Forall2_lookup_r _ _ _ _ _ HF Hr) as (tx & Htx & Hres).
  destruct (Hall tx) as (cat & q & Hk & Hq).
  { apply list_elem_of_lookup. eauto. }
  destruct Hres as (Hk' & _). rewrite Hk in Hk'. by injection Hk' as _ <-.
Qed.

(** X10. One record on which the matcher raises makes the whole batch
    raise ZeroDivisionError: no partial frame is returned. *)
Theorem classify_batch_bad_row e df tx ex :
  tx ∈ df ->
  keyword_match (rules e) (tx_narration tx) = Raise ex ->
  classify_batch e df = Raise ZeroDivisionError.
Proof.
  intros Hin Hk. unfold classify_batch.
  rewrite (mapM_raise (rule_row (rules e)) df tx ZeroDivisionError Hin).
  - done.
  - exists ex. unfold rule_row. by rewrite Hk.
  - intros tx' ex'. unfold rule_row.
    destruct (keyword_match (rules e) (tx_narration tx')) eqn:E; [done|].
    simpl. intros [= <-]. by apply (keyword_match_raise_zero _ _ _ E).
Qed.

End BatchExtras.

Section BatchExtrasWitnesses.
Import Double.

Lemma classify_batch_passes_through_witness :
  exists out,
    classify_batch Double.trained Double.batch = Ok out
    /\ map narration out = map tx_narration Double.batch
    /\ map method out = [RuleBased; RuleBased; MLBased; RuleBased].
Proof.
  assert (exists out,
            classify_batch Double.trained Double.batch = Ok out
            /\ map method out = [RuleBased; RuleBased; MLBased; RuleBased])
    as (out & H & Hm) by (eexists; split; vm_compute; reflexivity).
  exists out. split; [exact H|].
  split; [|exact Hm].
  exact (proj1 (proj2 (classify_batch_passes_through _ _ _ H))).
Defined.

Lemma classify_batch_empty_witness :
  classify_batch Double.fresh [] = Ok []
  /\ classify_batch Double.trained [] = Raise (KeyError "confidence").
Proof.
  split.
  - exact (proj1 (classify_batch_empty Double.fresh []) eq_refl eq_refl).
  - apply (proj1 (proj2 (classify_batch_empty Double.trained [])) eq_refl).
    vm_compute. eauto.
Defined.

Lemma classify_batch_no_low_rows_witness :
  exists out,
    classify_batch
      (fst (discover_new_categories Double.trained Double.unknown_texts))
      [ {| tx_narration := "cvs pharmacy"; tx_amount := 45 |} ] = Ok out
    /\ map method out = [RuleBased].
Proof.
  destruct (classify_batch_no_low_rows
              (fst (discover_new_categories Double.trained
                      Double.unknown_texts))
              [ {| tx_narration := "cvs pharmacy"; tx_amount := 45 |} ])
    as (out & H & HF).
  - discriminate.
  - intros tx ->%list_elem_of_singleton.
    exists "Healthcare", ((3 # 2) / 2)%Q. split; [reflexivity|].
    vm_compute. discriminate.
  - exists out. split; [exact H|].
    apply Forall2_cons_inv_l in HF as (r & out' & Hr & Hnil & ->).
    apply Forall2_nil_inv_l in Hnil as ->.
    destruct Hr as (_ & _ & _ & Hm). simpl. by rewrite Hm.
Defined.

Lemma classify_batch_bad_row_witness :
  classify_batch (init Scenario.blank_rules)
    [ {| tx_narration := "pharmacy"; tx_amount := 10 |};
      {| tx_narration := ""; tx_amount := 20 |} ]
  = Raise ZeroDivisionError.
Proof.
  apply (classify_batch_bad_row (init Scenario.blank_rules) _
           {| tx_narration := ""; tx_amount := 20 |} ZeroDivisionError).
  - apply list_elem_of_further, list_elem_of_here.
  - reflexivity.
Defined.

End BatchExtrasWitnesses.

(** ** discover_new_categories: further properties *)

Section DiscoverExtras.
Context `{SK : Sklearn}.
Implicit Types (e : Engine) (labels : list Z).

Lemma select_rows_sublist {A} mask (l : list A) :
  select_rows mask l `sublist_of` l.
Proof.
  revert mask. induction l as [|x l IH]; intros [|[] mask]; simpl;
    try apply sublist_nil_l.
  - by apply sublist_skip.
  - by apply sublist_cons.
Qed.

Lemma cluster_texts_elem (texts : list string) i labels label members j :
  cluster_texts texts i labels label = Ok members ->
  labels !! j = Some label ->
  exists t, texts !! (i + j)%nat = Some t /\ t ∈ members.
Proof.
  revert i j members.
  induction labels as [|l labels IH]; intros i j members; [done|].
  simpl. destruct j as [|j]; simpl.
  - intros H [= ->]. rewrite Z.eqb_refl in H.
    destruct (texts !! i) as [t|] eqn:Et; [|done].
    destruct (cluster_texts texts (S i) labels label) as [rest|]; [|done].
    simpl in H. injection H as <-. exists t.
    rewrite Nat.add_0_r. split; [done|apply list_elem_of_here].
  - intros H Hj. replace (i + S j)%nat with (S i + j)%nat by lia.
    destruct (l =? label)%Z.
    + destruct (texts !! i) as [t|]; [|done].
      destruct (cluster_texts texts (S i) labels label) as [rest|] eqn:E;
        [|done].
      simpl in H. injection H as <-.
      destruct (IH _ _ _ E Hj) as (t' & Ht' & Hin).
      exists t'. split; [done|by apply list_elem_of_further].
    + by apply (IH _ _ _ H Hj).
Qed.

Lemma cluster_texts_total (texts : list string) i labels label :
  (i + length labels <= length texts)%nat ->
  exists members, cluster_texts texts i labels label = Ok members.
Proof.
  revert i. induction labels as [|l labels IH]; intros i Hlen; [by eexists|].
  simpl in *. destruct (IH (S i)) as (rest & Hrest); [lia|].
  rewrite Hrest. destruct (l =? label)%Z; [|eauto].
  destruct (lookup_lt_is_Some_2 texts i) as [t ->]; [lia|].
  simpl. eauto.
Qed.

Lemma discover_loop_total (texts : list string) labels todo acc :
  (forall l, l ∈ todo -> l <> (-1)%Z ->
             exists v, cluster_texts texts 0 labels l = Ok v) ->
  exists m, discover_loop texts labels todo acc = Ok m.
Proof.
  revert acc. induction todo as [|l todo IH]; intros acc Hall; simpl;
    [eauto|].
  assert (forall l', l' ∈ todo -> l' <> (-1)%Z ->
                     exists v, cluster_texts texts 0 labels l' = Ok v) as H'.
  { intros l' Hl'. apply Hall. by apply list_elem_of_further. }
  destruct (l =? -1)%Z eqn:E; [by apply IH|].
  apply Z.eqb_neq in E.
  destruct (Hall l) as (v & ->); [apply list_elem_of_here|done|].
  simpl. by apply IH.
Qed.

Lemma discover_loop_clusters (texts : list string) labels todo acc m l :
  discover_loop texts labels todo acc = Ok m ->
  l ∈ todo -> l <> (-1)%Z ->
  exists v, cluster_texts texts 0 labels l = Ok v.
Proof.
  revert acc. induction todo as [|l0 todo IH]; intros acc; simpl.
  - by intros _ ?%not_elem_of_nil.
  - destruct (l0 =? -1)%Z eqn:E.
    + apply Z.eqb_eq in E. intros H [->|Hin]%elem_of_cons Hne; [done|].
      by apply (IH acc).
    + destruct (cluster_texts texts 0 labels l0) as [v0|] eqn:Ec; [|done].
      simpl. intros H [->|Hin]%elem_of_cons Hne; [eauto|].
      by apply (IH _ H).
Qed.

(** What a successful run with five or more texts went through. *)
Lemma discover_run e (texts : list string) m :
  (5 <= length texts)%nat ->
  snd (discover_new_categories e texts) = Ok m ->
  exists X,
    snd (fit_transform (vectorizer e) texts) = Ok X
    /\ discover_loop texts (dbscan_fit_predict X)
         (remove_dups (dbscan_fit_predict X)) ∅ = Ok m.
Proof.
  intros Hlen. unfold discover_new_categories.
  destruct (length texts <? 5)%nat eqn:E.
  { apply Nat.ltb_lt in E. lia. }
  destruct (snd (fit_transform (vectorizer e) texts)) as [X|]; [|done].
  simpl. eauto.
Qed.

Lemma discover_floor e (texts : list string) :
  (length texts < 5)%nat -> discover_new_categories e texts = (e, Ok ∅).
Proof.
  intros H. unfold discover_new_categories.
  destruct (length texts <? 5)%nat eqn:E; [done|].
  apply Nat.ltb_ge in E. lia.
Qed.

(** X11. Every value of the mapping [discover_new_categories] returns is
    a non-empty subsequence of the input texts, in input order, stored
    under a key NewCategory_<label> of a label other than -1. *)
Theorem discover_values_sublists e (texts : list string) m name members :
  snd (discover_new_categories e texts) = Ok m ->
  m !! name = Some members ->
  members <> []
  /\ members `sublist_of` texts
  /\ exists label, label <> (-1)%Z /\ name = category_name label.
Proof.
  intros H Hm.
  destruct (decide (length texts < 5)%nat) as [Hlt|Hge].
  { rewrite (discover_floor e texts Hlt) in H. simpl in H.
    injection H as <-. by rewrite lookup_empty in Hm. }
  destruct (discover_run e texts m) as (X & _ & Hloop); [lia|done|].
  apply (discover_loop_spec _ _ _ _ _ Hloop) in Hm
    as [(l & Hl & Hne & -> & Hc)|[Hacc _]];
    [|by rewrite lookup_empty in Hacc].
  rewrite elem_of_remove_dups in Hl.
  apply list_elem_of_lookup in Hl as [j Hj].
  destruct (cluster_texts_elem _ _ _ _ _ _ Hc Hj) as (t & _ & Ht).
  split; [|split].
  - intros ->. by apply not_elem_of_nil in Ht.
  - rewrite (cluster_texts_select _ _ _ _ _ Hc). apply select_rows_sublist.
  - by exists l.
Qed.

(** X12. After a successful run on five or more texts every text whose
    cluster label is not -1 is listed under the key of its label; texts
    with different labels are under different keys. *)
Theorem discover_covers_clusters e (texts : list string) m :
  (5 <= length texts)%nat ->
  snd (discover_new_categories e texts) = Ok m ->
  exists X,
    snd (fit_transform (vectorizer e) texts) = Ok X
    /\ (forall j l,
          dbscan_fit_predict X !! j = Some l -> l <> (-1)%Z ->
          exists t members,
            texts !! j = Some t
            /\ m !! category_name l = Some members /\ t ∈ members)
    /\ (forall l l', category_name l = category_name l' -> l = l').
Proof.
  intros Hlen H. destruct (discover_run e texts m Hlen H) as (X & HX & Hloop).
  exists X. split; [done|]. split; [|apply category_name_inj].
  intros j l Hj Hne.
  assert (l ∈ remove_dups (dbscan_fit_predict X)) as Hl.
  { rewrite elem_of_remove_dups. apply list_elem_of_lookup. eauto. }
  destruct (discover_loop_clusters _ _ _ _ _ _ Hloop Hl Hne) as (v & Hv).
  destruct (cluster_texts_elem _ _ _ _ _ _ Hv Hj) as (t & Ht & Hin).
  exists t, v. split; [done|]. split; [|done].
  apply (discover_loop_spec _ _ _ _ _ Hloop). left. by exists l.
Qed.

(** X13. [discover_new_categories] returns the empty mapping and leaves
    the engine alone when given fewer than five texts. With five or more
    it returns a mapping whenever the vectorizer fit succeeds and the
    clustering yields no more labels than there are texts. *)
Theorem discover_returns e (texts : list string) :
  ((length texts < 5)%nat -> discover_new_categories e texts = (e, Ok ∅))
  /\ (forall X,
        (5 <= length texts)%nat ->
        snd (fit_transform (vectorizer e) texts) = Ok X ->
        (length (dbscan_fit_predict X) <= length texts)%nat ->
        exists m, snd (discover_new_categories e texts) = Ok m).
Proof.
  split; [apply discover_floor|].
  intros X Hlen HX Hlabels. unfold discover_new_categories.
  destruct (length texts <? 5)%nat eqn:E.
  { apply Nat.ltb_lt in E. lia. }
  rewrite HX. simpl. apply discover_loop_total.
  intros l _ _. by apply cluster_texts_total.
Qed.

End DiscoverExtras.

Section DiscoverExtrasWitnesses.
Import Double.

Lemma discover_values_sublists_witness :
  exists m,
    snd (discover_new_categories trained unknown_texts) = Ok m
    /\ m !! "NewCategory_1"
       = Some ["spotify premium subscription";
               "spotify premium subscription"]
    /\ ["spotify premium subscription"; "spotify premium subscription"]
       `sublist_of` unknown_texts.
Proof.
  assert (exists m,
            snd (discover_new_categories trained unknown_texts) = Ok m
            /\ m !! "NewCategory_1"
               = Some ["spotify premium subscription";
                       "spotify premium subscription"])
    as (m & H & Hm) by (eexists; split; vm_compute; reflexivity).
  exists m. split; [exact H|]. split; [exact Hm|].
  exact (proj1 (proj2 (discover_values_sublists _ _ _ _ _ H Hm))).
Defined.

Lemma discover_covers_clusters_witness :
  exists m members,
    snd (discover_new_categories trained unknown_texts) = Ok m
    /\ m !! category_name 0 = Some members
    /\ "netflix subscription monthly" ∈ members.
Proof.
  assert (exists m, snd (discover_new_categories trained unknown_texts) = Ok m)
    as (m & H) by (eexists; vm_compute; reflexivity).
  assert (5 <= length unknown_texts)%nat as Hlen by (vm_compute; lia).
  destruct (discover_covers_clusters trained unknown_texts m Hlen H)
    as (X & HX & Hcov & _).
  vm_compute in HX. injection HX as <-.
  destruct (Hcov 2%nat 0%Z) as (t & members & Ht & Hm & Hin).
  - vm_compute. reflexivity.
  - discriminate.
  - exists m, members. split; [exact H|]. split; [exact Hm|].
    injection Ht as <-. exact Hin.
Defined.

Lemma discover_returns_witness :
  discover_new_categories trained ["a"; "b"] = (trained, Ok ∅)
  /\ exists m, snd (discover_new_categories trained unknown_texts) = Ok m.
Proof.
  split.
  - apply (proj1 (discover_returns trained ["a"; "b"])). vm_compute. lia.
  - assert (exists X, snd (fit_transform (vectorizer trained) unknown_texts)
                      = Ok X
                      /\ (length (dbscan_fit_predict X)
                          <= length unknown_texts)%nat) as (X & HX & HL).
    { eexists. split; [vm_compute; reflexivity|]. vm_compute. lia. }
    apply (proj2 (discover_returns trained unknown_texts) X);
      [vm_compute; lia|exact HX|exact HL].
Defined.

End DiscoverExtrasWitnesses.

(** ** train_ml_model: further properties *)

Section TrainExtras.
Context `{SK : Sklearn}.
Implicit Types (e : Engine) (rows : list Row).

Lemma labelled_rows_known rows :
  Forall (fun c => c <> "Unknown") (map category (labelled_rows rows)).
Proof.
  apply Forall_forall. intros c Hc.
  change (map category (labelled_rows rows))
    with (category <$> labelled_rows rows) in Hc.
  apply list_elem_of_fmap in Hc as (r & -> & Hr).
  by apply list_elem_of_filter in Hr as [? _].
Qed.

(** X14. A call of [train_ml_model] that returns did one of two things.
    With fewer than 10 labelled rows it changed nothing. Otherwise it
    refitted the vectorizer on the narrations of the labelled rows and
    installed a classifier fitted, starting from a new forest, on their
    features, labels and weights; no label is "Unknown", the rules are
    untouched, and the message counts the labelled rows. *)
Theorem train_ml_model_returns e rows e' msg :
  train_ml_model e rows = (e', Ok msg) ->
  ((length (labelled_rows rows) < 10)%nat /\ e' = e
   /\ msg = "Not enough labeled data for training")
  \/ ((10 <= length (labelled_rows rows))%nat
      /\ rules e' = rules e
      /\ discovered_categories e' = discovered_categories e
      /\ Forall (fun c => c <> "Unknown")
           (map category (labelled_rows rows))
      /\ msg = "Model trained on " +:+ pretty (length (labelled_rows rows))
               +:+ " samples"
      /\ exists X clf,
           fit_transform (vectorizer e) (map narration (labelled_rows rows))
           = (vectorizer e', Ok X)
           /\ forest_fit new_forest X (map category (labelled_rows rows))
                (sample_weights (map amount (labelled_rows rows)))
              = (clf, Ok tt)
           /\ ml_classifier e' = Some clf).
Proof.
  destruct (decide (rows = [])) as [->|Hne];
    [by rewrite train_ml_model_nil|].
  rewrite (train_ml_model_rows e rows Hne). cbv zeta.
  destruct (length (labelled_rows rows) <? 10)%nat eqn:E.
  { apply Nat.ltb_lt in E. intros [= <- <-]. by left. }
  apply Nat.ltb_ge in E.
  destruct (fit_transform (vectorizer e) (map narration (labelled_rows rows)))
    as [v [X|]] eqn:Efit; simpl; [|done].
  destruct (forest_fit new_forest X _ _) as [clf [[]|]] eqn:Eforest; simpl;
    [|done].
  intros [= <- <-]. right. repeat split; try done.
  - apply labelled_rows_known.
  - by exists X, clf.
Qed.

(** X15. A call of [train_ml_model] that raises either was given the
    frame without columns, and then raised KeyError('category') with the
    engine as it was, or it had at least 10 labelled rows and does not
    leave the engine as it was. In the second case the vectorizer has
    gone through [fit_transform]; if it was the forest fit that raised,
    [ml_classifier] holds the forest that failed to fit: it is no longer
    None, also on an engine that never was trained. *)
Theorem train_ml_model_raises e rows ex :
  snd (train_ml_model e rows) = Raise ex ->
  let e' := fst (train_ml_model e rows) in
  let fitted :=
    fit_transform (vectorizer e) (map narration (labelled_rows rows)) in
  (rows = [] /\ ex = KeyError "category" /\ e' = e)
  \/ (rows <> []
      /\ (10 <= length (labelled_rows rows))%nat
      /\ rules e' = rules e
      /\ vectorizer e' = fst fitted
      /\ ((snd fitted = Raise ex /\ ml_classifier e' = ml_classifier e)
          \/ (exists X,
                snd fitted = Ok X
                /\ snd (forest_fit new_forest X
                          (map category (labelled_rows rows))
                          (sample_weights (map amount (labelled_rows rows))))
                   = Raise ex
                /\ is_Some (ml_classifier e')))).
Proof.
  destruct (decide (rows = [])) as [->|Hne].
  { rewrite train_ml_model_nil. simpl. intros [= <-]. by left. }
  rewrite (train_ml_model_rows e rows Hne). cbv zeta.
  destruct (length (labelled_rows rows) <? 10)%nat eqn:E; [done|].
  apply Nat.ltb_ge in E.
  destruct (fit_transform (vectorizer e) (map narration (labelled_rows rows)))
    as [v [X|ex1]] eqn:Efit; simpl.
  - destruct (forest_fit new_forest X _ _) as [clf [[]|ex2]] eqn:Eforest;
      simpl; [done|].
    intros [= <-]. right. repeat split; [done..|]. right. exists X.
    rewrite Eforest. by repeat split.
  - intros [= <-]. right. repeat split; [done..|]. by left.
Qed.

Lemma Qsum_nonneg (l : list Q) :
  Forall (fun x => (0 <= x)%Q) l -> (0 <= Qsum l)%Q.
Proof.
  induction 1 as [|x l Hx _ IH]; simpl; [apply Qle_refl|].
  change 0%Q with (0 + 0)%Q at 1. by apply Qplus_le_compat.
Qed.

Lemma Qsum_abs_nonneg (amounts : list Q) : (0 <= Qsum (map Qabs amounts))%Q.
Proof.
  apply Qsum_nonneg, Forall_forall. intros x Hx.
  change (map Qabs amounts) with (Qabs <$> amounts) in Hx.
  apply list_elem_of_fmap in Hx as (a & -> & _). apply Qabs_nonneg.
Qed.

Lemma Qsum_abs_zero (amounts : list Q) :
  Forall (fun a => (a == 0)%Q) amounts -> (Qsum (map Qabs amounts) == 0)%Q.
Proof.
  induction 1 as [|a l Ha _ IH]; simpl; [done|].
  rewrite IH, Ha. reflexivity.
Qed.

Lemma Qsum_abs_ge (amounts : list Q) a :
  a ∈ amounts -> (Qabs a <= Qsum (map Qabs amounts))%Q.
Proof.
  induction amounts as [|b l IH]; [by intros ?%not_elem_of_nil|].
  intros [->|H]%elem_of_cons; simpl.
  - rewrite <- (Qplus_0_r (Qabs b)) at 1.
    apply Qplus_le_compat; [apply Qle_refl | apply Qsum_abs_nonneg].
  - rewrite <- (Qplus_0_l (Qabs a)).
    apply Qplus_le_compat; [apply Qabs_nonneg | by apply IH].
Qed.

Lemma Qabs_opp_eq (a : Q) : Qabs (- a) = Qabs a.
Proof. destruct a as [n d]. unfold Qabs, Qopp. simpl. by rewrite Z.abs_opp. Qed.

(** X16. On a column in which no amount is missing the sample weights
    are the absolute amounts divided by their sum: the sign of an amount
    does not matter; when some amount is not zero every weight is a
    number between 0 and 1; when every amount is zero every weight is the
    NaN of 0/0. *)
Theorem sample_weights_proportional (amounts : list Q) :
  sample_weights (map Qopp amounts) = sample_weights amounts
  /\ (~ (Qsum (map Qabs amounts) == 0)%Q ->
      exists ws,
        sample_weights amounts = map Some ws
        /\ ws = map (fun a => (Qabs a / Qsum (map Qabs amounts))%Q) amounts
        /\ Forall (fun w => (0 <= w)%Q /\ (w <= 1)%Q) ws)
  /\ (Forall (fun a => (a == 0)%Q) amounts ->
      sample_weights amounts = map (fun _ => None) amounts).
Proof.
  split; [|split].
  - unfold sample_weights. rewrite !map_map.
    rewrite (map_ext (fun a => Qabs (- a)) Qabs) by apply Qabs_opp_eq.
    apply map_ext. intros a. by rewrite Qabs_opp_eq.
  - intros Hne.
    assert (0 < Qsum (map Qabs amounts))%Q as Hpos.
    { pose proof (Qsum_abs_nonneg amounts) as H0.
      apply Qle_lteq in H0 as [H0|H0]; [done|]. destruct Hne. by symmetry. }
    eexists. split; [|split; [reflexivity|]].
    + unfold sample_weights.
      destruct (Qeq_bool _ 0) eqn:E; [by apply Qeq_bool_iff in E|].
      by rewrite map_map.
    + apply Forall_forall. intros w Hw.
      change (map ?f amounts) with (f <$> amounts) in Hw.
      apply list_elem_of_fmap in Hw as (a & -> & Ha). split.
      * apply Qle_shift_div_l; [done|].
        rewrite Qmult_0_l. apply Qabs_nonneg.
      * apply Qle_shift_div_r; [done|].
        rewrite Qmult_1_l. by apply Qsum_abs_ge.
  - intros Hz. unfold sample_weights.
    pose proof (Qsum_abs_zero amounts Hz) as H0.
    apply Qeq_bool_iff in H0. by rewrite H0.
Qed.

End TrainExtras.

Section TrainExtrasWitnesses.
Import Double.

Lemma train_ml_model_returns_witness :
  train_ml_model fresh labelled
  = (trained, Ok "Model trained on 10 samples")
  /\ is_Some (ml_classifier trained).
Proof.
  assert (snd (train_ml_model fresh labelled)
          = Ok "Model trained on 10 samples") as Hs
    by (vm_compute; reflexivity).
  assert (train_ml_model fresh labelled
          = (trained, Ok "Model trained on 10 samples")) as H
    by (unfold trained; rewrite <- Hs; apply surjective_pairing).
  split; [exact H|].
  destruct (train_ml_model_returns _ _ _ _ H)
    as [(Hlt & _)|(_ & _ & _ & _ & _ & X & clf & _ & _ & Hclf)].
  - vm_compute in Hlt. lia.
  - rewrite Hclf. eauto.
Defined.

Lemma train_ml_model_raises_witness :
  snd (train_ml_model fresh Scenario.zero_amounts)
  = Raise (ValueError "sample_weight contains NaN")
  /\ ml_classifier fresh = None
  /\ is_Some (ml_classifier (fst (train_ml_model fresh Scenario.zero_amounts))).
Proof.
  assert (snd (train_ml_model fresh Scenario.zero_amounts)
          = Raise (ValueError "sample_weight contains NaN")) as H
    by (vm_compute; reflexivity).
  split; [exact H|]. split; [reflexivity|].
  destruct (train_ml_model_raises _ _ _ H)
    as [(Hnil & _)
       |(_ & _ & _ & _ & [[Hfit _]|(X & _ & _ & Hsome)])].
  - discriminate Hnil.
  - vm_compute in Hfit. discriminate Hfit.
  - exact Hsome.
Defined.

Lemma sample_weights_proportional_witness :
  ~ (Qsum (map Qabs [45; -15; 0]) == 0)%Q
  /\ sample_weights [45; -15; 0]%Q
     = map Some (map (fun a => (Qabs a / Qsum (map Qabs [45; -15; 0]))%Q)
                     [45; -15; 0]%Q)
  /\ sample_weights [0; 0]%Q = [None; None].
Proof.
  assert (~ (Qsum (map Qabs [45; -15; 0]) == 0)%Q) as Hne
    by (vm_compute; discriminate).
  split; [exact Hne|].
  destruct (sample_weights_proportional [45; -15; 0]%Q) as (_ & Hsome & _).
  destruct (Hsome Hne) as (ws & Hws & -> & _).
  split; [exact Hws|].
  apply (proj2 (proj2 (sample_weights_proportional [0; 0]%Q))).
  repeat constructor.
Defined.

End TrainExtrasWitnesses.

(** ** The drivers: train_and_log_model and the ZenML pipeline *)

Section DriverExtras.
Context `{SK : Sklearn}.
Implicit Types (rs : RuleSet) (df : list Transaction) (log : list event).

Lemma and_then_returned {A B} (m : Run A) (k : A -> Run B) log log' b :
  and_then m k log = (log', Returned b) ->
  exists a log1, m log = (log1, Returned a) /\ k a log1 = (log', Returned b).
Proof.
  unfold and_then. destruct (m log) as [log1 [a|ex]]; [eauto|done].
Qed.

Lemma and_then_emit {B} ev (k : unit -> Run B) log :
  and_then (emit ev) k log = k tt (log ++ [ev]).
Proof. done. Qed.

Lemma and_then_lift_ok {A B} (r : result A) (k : A -> Run B) log a :
  r = Ok a -> and_then (lift r) k log = k a log.
Proof. by intros ->. Qed.

Lemma and_then_lift_raise {A B} (r : result A) (k : A -> Run B) log ex :
  r = Raise ex -> and_then (lift r) k log = (log, Failed (EngineError ex)).
Proof. by intros ->. Qed.

Lemma lift_returned {A} (r : result A) log log' a :
  lift r log = (log', Returned a) -> r = Ok a /\ log' = log.
Proof. unfold lift. destruct r; [|done]. by intros [= <- <-]. Qed.

Lemma coverage_Ok (rows : list Row) :
  rows <> [] -> exists q, coverage rows = Ok q.
Proof. destruct rows; [done|]. intros _. unfold coverage. simpl. eauto. Qed.

Lemma unknown_narrations_Ok (rows : list Row) :
  rows <> [] ->
  unknown_narrations rows
  = Ok (map narration (filter (fun r => category r = "Unknown") rows)).
Proof. by destruct rows. Qed.

Lemma discover_keeps_classifier (e : Engine) (texts : list string) :
  ml_classifier (fst (discover_new_categories e texts)) = ml_classifier e
  /\ rules (fst (discover_new_categories e texts)) = rules e
  /\ discovered_categories (fst (discover_new_categories e texts))
     = discovered_categories e.
Proof.
  unfold discover_new_categories.
  destruct (length texts <? 5)%nat; [done|].
  by destruct (snd (fit_transform (vectorizer e) texts)).
Qed.

Lemma classify_batch_nonempty (e : Engine) df out :
  classify_batch e df = Ok out -> df <> [] -> out <> [].
Proof.
  intros (rows & Hrows%rule_pass_Ok & Hlen & _)%classify_batch_rows Hne.
  apply Forall2_length in Hrows. destruct out; [|done].
  destruct df; [done|]. simpl in *. lia.
Qed.

(** X17. On a frame without rows both drivers stop with
    KeyError('category'): the frame [classify_batch] returns for it has no
    columns. [train_and_log_model] has by then logged its two parameters,
    the pipeline has printed how many records it loaded. *)
Theorem drivers_empty_frame rs run_id name :
  train_and_log_model rs run_id [] name []
  = ([SetExperiment name; LogParam "total_records" (SInt 0);
      LogParam "unknown_threshold" (SFloat (unknown_threshold rs))],
     Failed (EngineError (KeyError "category")))
  /\ ner_classification_pipeline rs [] []
     = ([PrintLine "Loaded 0 transactions"],
        Failed (EngineError (KeyError "category"))).
Proof. split; reflexivity. Qed.

(** X18. When the rules label fewer than 10 records,
    [train_and_log_model] does not return: training is skipped, the
    untrained engine is pickled, and the run then stops with
    UnboundLocalError on [final_classified] before any result file is
    written. *)
Theorem train_and_log_model_untrained rs run_id df name classified cats :
  df <> [] ->
  classify_batch (init rs) df = Ok classified ->
  (length (labelled_rows classified) < 10)%nat ->
  snd (discover_new_categories (init rs)
         (map narration
            (filter (fun r => category r = "Unknown") classified)))
  = Ok cats ->
  exists log b,
    train_and_log_model rs run_id df name []
    = (log, Failed (UnboundLocalError "final_classified"))
    /\ SaveModel "models/ner_classifier.pkl" b ∈ log
    /\ b_classifier b = None
    /\ forall path rows, ToCsv path rows ∉ log.
Proof.
  intros Hdf Hc Hfew Hd.
  pose proof (classify_batch_nonempty _ _ _ Hc Hdf) as Hne.
  destruct (coverage_Ok classified Hne) as (cov & Hcov).
  pose proof (unknown_narrations_Ok classified Hne) as Hun.
  set (texts := map narration
                  (filter (fun r => category r = "Unknown") classified)) in *.
  destruct (discover_keeps_classifier (init rs) texts) as (Hml & _ & _).
  set (e1 := fst (discover_new_categories (init rs) texts)) in *.
  assert (train_ml_model e1 classified
          = (e1, Ok "Not enough labeled data for training")) as Ht.
  { rewrite (train_ml_model_rows _ classified Hne).
    destruct (length (labelled_rows classified) <? 10)%nat eqn:E; [done|].
    apply Nat.ltb_ge in E. lia. }
  unfold train_and_log_model.
  rewrite and_then_emit, (and_then_lift_ok _ _ _ _ Hc), !and_then_emit.
  rewrite (and_then_lift_ok _ _ _ _ Hcov), and_then_emit.
  rewrite (and_then_lift_ok _ _ _ _ Hun). cbv zeta. fold e1.
  rewrite (and_then_lift_ok _ _ _ _ Hd), and_then_emit.
  rewrite Ht. simpl fst. simpl snd.
  rewrite (and_then_lift_ok _ _ _ _ eq_refl), and_then_emit.
  rewrite Hml. simpl ml_classifier.
  unfold and_then at 1. unfold ret at 1.
  rewrite !and_then_emit.
  destruct (bool_decide (cats = ∅)).
  - unfold and_then, ret, fail. eexists _, _. split; [reflexivity|].
    split; [|split].
    + rewrite !elem_of_app, !list_elem_of_singleton. left. right. reflexivity.
    + exact Hml.
    + intros path rows.
      rewrite !elem_of_app, !list_elem_of_singleton, elem_of_nil.
      intros H. by repeat destruct H as [H|H].
  - rewrite and_then_emit. unfold fail. eexists _, _. split; [reflexivity|].
    split; [|split].
    + rewrite !elem_of_app, !list_elem_of_singleton.
      do 2 left. right. reflexivity.
    + exact Hml.
    + intros path rows.
      rewrite !elem_of_app, !list_elem_of_singleton, elem_of_nil.
      intros H. by repeat destruct H as [H|H].
Qed.

Lemma and_then_run {A B} (m : Run A) (k : A -> Run B) log log1 a :
  m log = (log1, Returned a) -> and_then m k log = k a log1.
Proof. unfold and_then. by intros ->. Qed.

Lemma load_data_run df log :
  load_data df log
  = (log ++ [PrintLine ("Loaded " +:+ pretty (length df)
                        +:+ " transactions")],
     Returned df).
Proof. done. Qed.

(** The pipeline, step by step, when every step succeeds. *)
Lemma pipeline_run rs df classified cats (e : Engine) line final cov :
  classified <> [] ->
  classify_batch (init rs) df = Ok classified ->
  snd (discover_new_categories (init rs)
         (map narration
            (filter (fun r => category r = "Unknown") classified)))
  = Ok cats ->
  train_ml_model (init rs) classified = (e, Ok line) ->
  classify_batch e df = Ok final ->
  coverage final = Ok cov ->
  ner_classification_pipeline rs df []
  = ([PrintLine ("Loaded " +:+ pretty (length df) +:+ " transactions");
      PrintLine line; SetExperiment "NER-ZenML-Pipeline";
      LogMetric "total_transactions" (SInt (length final));
      LogMetric "coverage" (SFloat cov);
      LogCategories "discovered_categories.json" cats;
      SaveModel "models/ner_classifier.pkl" (save_model e);
      LogArtifact "models/ner_classifier.pkl";
      ToCsv "data/processed/final_results.csv" final;
      LogArtifact "data/processed/final_results.csv"],
     Returned final).
Proof.
  intros Hne Hc Hd Ht Hfinal Hcov.
  assert (discover_categories rs classified = Ok cats) as Hdc.
  { unfold discover_categories.
    by rewrite (unknown_narrations_Ok classified Hne). }
  assert (forall log,
            train_classifier rs classified log
            = (log ++ [PrintLine line], Returned e)) as Htc.
  { intros log. unfold train_classifier. cbv zeta. rewrite Ht.
    simpl fst. simpl snd.
    by rewrite (and_then_lift_ok _ _ _ _ eq_refl), and_then_emit. }
  unfold ner_classification_pipeline, rule_based_classification,
    final_classification, log_to_mlflow.
  rewrite (and_then_run _ _ _ _ _ (load_data_run df [])).
  rewrite (and_then_lift_ok _ _ _ _ Hc), (and_then_lift_ok _ _ _ _ Hdc).
  rewrite (and_then_run _ _ _ _ _ (Htc _)).
  rewrite (and_then_lift_ok _ _ _ _ Hfinal).
  unfold and_then at 1.
  rewrite !and_then_emit, (and_then_lift_ok _ _ _ _ Hcov), !and_then_emit.
  reflexivity.
Qed.

(** X19. With the same input the pipeline does return: its training step
    gives back the untrained classifier, and the final classification is
    the rule-based frame again, which is written to the result file. *)
Theorem pipeline_untrained rs df classified cats :
  df <> [] ->
  classify_batch (init rs) df = Ok classified ->
  (length (labelled_rows classified) < 10)%nat ->
  snd (discover_new_categories (init rs)
         (map narration
            (filter (fun r => category r = "Unknown") classified)))
  = Ok cats ->
  exists log,
    ner_classification_pipeline rs df [] = (log, Returned classified)
    /\ ToCsv "data/processed/final_results.csv" classified ∈ log
    /\ SaveModel "models/ner_classifier.pkl" (save_model (init rs)) ∈ log.
Proof.
  intros Hdf Hc Hfew Hd.
  pose proof (classify_batch_nonempty _ _ _ Hc Hdf) as Hne.
  destruct (coverage_Ok classified Hne) as (cov & Hcov).
  assert (train_ml_model (init rs) classified
          = (init rs, Ok "Not enough labeled data for training")) as Ht.
  { rewrite (train_ml_model_rows _ classified Hne).
    destruct (length (labelled_rows classified) <? 10)%nat eqn:E; [done|].
    apply Nat.ltb_ge in E. lia. }
  rewrite (pipeline_run rs df classified cats (init rs) _ classified cov
             Hne Hc Hd Ht Hc Hcov).
  eexists. split; [reflexivity|]. split.
  - do 8 apply list_elem_of_further. apply list_elem_of_here.
  - do 6 apply list_elem_of_further. apply list_elem_of_here.
Qed.

Lemma train_ml_model_trained (e e' : Engine) (rows : list Row) msg :
  train_ml_model e rows = (e', Ok msg) ->
  ml_classifier e = None -> is_Some (ml_classifier e') ->
  (10 <= length (labelled_rows rows))%nat /\ rules e' = rules e.
Proof.
  destruct (decide (rows = [])) as [->|Hne];
    [by rewrite train_ml_model_nil|].
  rewrite (train_ml_model_rows e rows Hne). cbv zeta.
  destruct (length (labelled_rows rows) <? 10)%nat eqn:E.
  { intros [= <- _] Hnone [clf Hclf]. congruence. }
  apply Nat.ltb_ge in E.
  destruct (snd (fit_transform _ _)); [|done].
  destruct (snd (forest_fit _ _ _ _)); [|done].
  by intros [= <- _].
Qed.

(** What a run of [train_and_log_model] that returns went through. *)
Lemma train_and_log_model_inv rs run_id df name log e final :
  train_and_log_model rs run_id df name [] = (log, Returned (e, final)) ->
  exists classified cats line,
    classify_batch (init rs) df = Ok classified
    /\ classified <> []
    /\ snd (discover_new_categories (init rs)
              (map narration
                 (filter (fun r => category r = "Unknown") classified)))
       = Ok cats
    /\ train_ml_model
         (fst (discover_new_categories (init rs)
                 (map narration
                    (filter (fun r => category r = "Unknown") classified))))
         classified
       = (e, Ok line)
    /\ is_Some (ml_classifier e)
    /\ classify_batch e df = Ok final
    /\ ToCsv "data/processed/classified_transactions.csv" final ∈ log
    /\ SaveModel "models/ner_classifier.pkl" (save_model e) ∈ log.
Proof.
  unfold train_and_log_model. rewrite and_then_emit. intros H.
  apply and_then_returned in H as (classified & l1 & Hc & H).
  apply lift_returned in Hc as [Hc ->].
  rewrite !and_then_emit in H.
  apply and_then_returned in H as (cov & l2 & Hcov & H).
  apply lift_returned in Hcov as [Hcov ->].
  assert (classified <> []) as Hne by (by destruct classified).
  rewrite and_then_emit, (unknown_narrations_Ok classified Hne) in H.
  apply and_then_returned in H as (texts & l3 & Ht & H).
  apply lift_returned in Ht as [[= <-] ->].
  cbv zeta in H.
  apply and_then_returned in H as (cats & l4 & Hd & H).
  apply lift_returned in Hd as [Hd ->].
  rewrite and_then_emit in H.
  apply and_then_returned in H as (line & l5 & Hl & H).
  apply lift_returned in Hl as [Hl ->].
  rewrite and_then_emit in H.
  apply and_then_returned in H as (fin & l6 & Hfin & H).
  rewrite !and_then_emit in H.
  apply and_then_returned in H as ([] & l7 & Hcat & H).
  destruct fin as [final'|]; [|done].
  rewrite !and_then_emit in H. unfold ret in H.
  injection H as <- <- <-.
  set (e2 := fst (train_ml_model _ classified)) in *.
  assert (is_Some (ml_classifier e2)
          /\ classify_batch e2 df = Ok final') as [Hsome Hfinal].
  { destruct (ml_classifier e2) as [clf|]; [|by injection Hfin].
    apply and_then_returned in Hfin as (fc & l8 & Hfc & Hfin).
    apply lift_returned in Hfc as [Hfc ->].
    apply and_then_returned in Hfin as (cov2 & l9 & _ & Hfin).
    rewrite !and_then_emit in Hfin. unfold ret in Hfin.
    injection Hfin as _ <-. eauto. }
  exists classified, cats, line. repeat split; try done.
  - subst e2. rewrite <- Hl. apply surjective_pairing.
  - rewrite !elem_of_app, !list_elem_of_singleton.
    do 2 left. right. reflexivity.
  - assert (SaveModel "models/ner_classifier.pkl" (save_model e2) ∈ l7)
      as Hin; [|rewrite !elem_of_app; eauto].
    destruct (bool_decide (cats = ∅)).
    + unfold ret in Hcat. injection Hcat as <-.
      rewrite !elem_of_app, !list_elem_of_singleton. left. right. done.
    + unfold emit in Hcat. injection Hcat as <-.
      rewrite !elem_of_app, !list_elem_of_singleton.
      do 2 left. right. done.
Qed.

(** X20. [train_and_log_model] returns only when a model was trained: the
    rules labelled at least 10 records, the engine returned carries a
    classifier and the default rules, and the frame returned (and written
    to the result file) is [classify_batch] of that engine on the input,
    one row per record. *)
Theorem train_and_log_model_returns rs run_id df name log e final :
  train_and_log_model rs run_id df name [] = (log, Returned (e, final)) ->
  is_Some (ml_classifier e)
  /\ rules e = rs
  /\ classify_batch e df = Ok final
  /\ length final = length df
  /\ (exists classified,
        classify_batch (init rs) df = Ok classified
        /\ (10 <= length (labelled_rows classified))%nat)
  /\ ToCsv "data/processed/classified_transactions.csv" final ∈ log
  /\ SaveModel "models/ner_classifier.pkl" (save_model e) ∈ log.
Proof.
  intros (classified & cats & line & Hc & Hne & Hd & Ht & Hsome & Hfinal
          & Hcsv & Hsave)%train_and_log_model_inv.
  destruct (discover_keeps_classifier (init rs)
              (map narration
                 (filter (fun r => category r = "Unknown") classified)))
    as (Hml & Hrules & _).
  destruct (train_ml_model_trained _ _ _ _ Ht Hml Hsome) as [Hten Hr].
  repeat split; try done.
  - by rewrite Hr, Hrules.
  - destruct (classify_batch_rows e df final Hfinal)
      as (rows & Hrows%rule_pass_Ok & Hlen & _).
    apply Forall2_length in Hrows. congruence.
  - by exists classified.
Qed.

Lemma train_ml_model_same (e e0 : Engine) (rows : list Row) :
  (forall v1 v2 docs, fit_transform v1 docs = fit_transform v2 docs) ->
  rules e = rules e0 -> ml_classifier e = ml_classifier e0 ->
  discovered_categories e = discovered_categories e0 ->
  (10 <= length (labelled_rows rows))%nat ->
  train_ml_model e rows = train_ml_model e0 rows.
Proof.
  intros Hrefit Hr Hm Hd Hten.
  assert (rows <> []) as Hne by (intros ->; simpl in Hten; lia).
  rewrite !(train_ml_model_rows _ rows Hne). cbv zeta.
  destruct (length (labelled_rows rows) <? 10)%nat eqn:E.
  { apply Nat.ltb_lt in E. lia. }
  rewrite (Hrefit (vectorizer e) (vectorizer e0)).
  unfold with_classifier, with_vectorizer. simpl. by rewrite Hr, Hm, Hd.
Qed.

(** X21. If fitting the vectorizer does not depend on what it was fitted
    on before, the two drivers agree: whenever [train_and_log_model]
    returns, the pipeline, which builds a new classifier for each step,
    returns the same final frame and pickles the same engine state. *)
Theorem drivers_agree rs run_id df name log e final :
  (forall v1 v2 docs, fit_transform v1 docs = fit_transform v2 docs) ->
  train_and_log_model rs run_id df name [] = (log, Returned (e, final)) ->
  exists log',
    ner_classification_pipeline rs df [] = (log', Returned final)
    /\ ToCsv "data/processed/final_results.csv" final ∈ log'
    /\ SaveModel "models/ner_classifier.pkl" (save_model e) ∈ log'.
Proof.
  intros Hrefit (classified & cats & line & Hc & Hne & Hd & Ht & Hsome
                 & Hfinal & _)%train_and_log_model_inv.
  destruct (discover_keeps_classifier (init rs)
              (map narration
                 (filter (fun r => category r = "Unknown") classified)))
    as (Hml & Hrules & Hdisc).
  destruct (train_ml_model_trained _ _ _ _ Ht Hml Hsome) as [Hten _].
  rewrite (train_ml_model_same _ (init rs) classified Hrefit Hrules Hml
             Hdisc Hten) in Ht.
  assert (df <> []) as Hdf.
  { intros ->. unfold classify_batch in Hc. simpl in Hc.
    injection Hc as <-. done. }
  assert (final <> []) as Hfne by (by eapply classify_batch_nonempty).
  destruct (coverage_Ok final Hfne) as (cov & Hcov).
  rewrite (pipeline_run rs df classified cats e line final cov
             Hne Hc Hd Ht Hfinal Hcov).
  eexists. split; [reflexivity|]. split.
  - do 8 apply list_elem_of_further. apply list_elem_of_here.
  - do 6 apply list_elem_of_further. apply list_elem_of_here.
Qed.

End DriverExtras.

Section DriverExtrasWitnesses.
Import Double Scenario.

Lemma train_and_log_model_untrained_witness :
  exists log,
    train_and_log_model example_rules "run1" batch "NER" []
    = (log, Failed (UnboundLocalError "final_classified")).
Proof.
  assert (exists classified,
            classify_batch (init example_rules) batch = Ok classified
            /\ (length (labelled_rows classified) < 10)%nat)
    as (classified & Hc & Hfew)
    by (eexists; split; [vm_compute; reflexivity|vm_compute; lia]).
  assert (exists cats,
            snd (discover_new_categories (init example_rules)
                   (map narration
                      (filter (fun r => category r = "Unknown") classified)))
            = Ok cats) as (cats & Hd).
  { exists ∅. rewrite discover_floor; [done|].
    vm_compute in Hc. injection Hc as <-. vm_compute. lia. }
  destruct (train_and_log_model_untrained example_rules "run1" batch "NER"
              classified cats) as (log & b & H & _); try done.
  exists log. exact H.
Defined.

Lemma pipeline_untrained_witness :
  exists log out,
    ner_classification_pipeline example_rules batch [] = (log, Returned out)
    /\ classify_batch (init example_rules) batch = Ok out.
Proof.
  assert (exists classified,
            classify_batch (init example_rules) batch = Ok classified
            /\ (length (labelled_rows classified) < 10)%nat)
    as (classified & Hc & Hfew)
    by (eexists; split; [vm_compute; reflexivity|vm_compute; lia]).
  assert (exists cats,
            snd (discover_new_categories (init example_rules)
                   (map narration
                      (filter (fun r => category r = "Unknown") classified)))
            = Ok cats) as (cats & Hd).
  { exists ∅. rewrite discover_floor; [done|].
    vm_compute in Hc. injection Hc as <-. vm_compute. lia. }
  destruct (pipeline_untrained example_rules batch classified cats)
    as (log & H & _); try done.
  exists log, classified. split; [exact H|exact Hc].
Defined.

Lemma train_and_log_model_returns_witness :
  exists log e final,
    train_and_log_model example_rules "run1" training_batch "NER" []
    = (log, Returned (e, final))
    /\ is_Some (ml_classifier e)
    /\ length final = length training_batch.
Proof.
  assert (has_returned
            (train_and_log_model example_rules "run1" training_batch "NER" [])
          = true) as Hb by (vm_compute; reflexivity).
  destruct (train_and_log_model example_rules "run1" training_batch "NER" [])
    as [log [[e final]|ex]] eqn:H; [|discriminate Hb].
  exists log, e, final. split; [reflexivity|].
  destruct (train_and_log_model_returns _ _ _ _ _ _ _ H)
    as (Hsome & _ & _ & Hlen & _).
  split; [exact Hsome|exact Hlen].
Defined.

Lemma drivers_agree_witness :
  exists log log' e final,
    train_and_log_model example_rules "run1" training_batch "NER" []
    = (log, Returned (e, final))
    /\ ner_classification_pipeline example_rules training_batch []
       = (log', Returned final).
Proof.
  assert (has_returned
            (train_and_log_model example_rules "run1" training_batch "NER" [])
          = true) as Hb by (vm_compute; reflexivity).
  destruct (train_and_log_model example_rules "run1" training_batch "NER" [])
    as [log [[e final]|ex]] eqn:H; [|discriminate Hb].
  destruct (drivers_agree example_rules "run1" training_batch "NER" log e
              final) as (log' & H' & _).
  - intros v1 v2 docs. reflexivity.
  - exact H.
  - exists log, log', e, final. split; [reflexivity|exact H'].
Defined.

End DriverExtrasWitnesses.

(** ** Coverage metric and padding *)

Section MoreExtras.

Lemma keyword_hits_ext kws t t' :
  (forall kw, kw ∈ kws -> Str.contains kw t' = Str.contains kw t) ->
  keyword_hits kws t' = keyword_hits kws t.
Proof.
  induction kws as [|k kws IH]; [done|]. intros H. simpl.
  rewrite (H k) by apply list_elem_of_here.
  rewrite IH; [done|]. intros kw Hkw. apply H. by apply list_elem_of_further.
Qed.

Lemma build_matches_ext cats t t' :
  (forall c info kw,
     (c, info) ∈ cats -> kw ∈ keywords info ->
     Str.contains kw t' = Str.contains kw t) ->
  build_matches cats t' = build_matches cats t.
Proof.
  induction cats as [|[c info] cats IH]; [done|]. intros H. simpl.
  unfold category_score.
  rewrite (keyword_hits_ext (keywords info) t t')
    by (intros kw Hkw; apply (H c info kw); [apply list_elem_of_here|done]).
  rewrite IH; [done|]. intros c' info' kw Hc' Hkw.
  apply (H c' info' kw); [by apply list_elem_of_further|done].
Qed.

(** X6. Padding dilutes: appending a word that brings no keyword
    occurrence with it keeps the category and the winning score, adds one
    to the word count the score is divided by, and so never raises the
    confidence. *)
Theorem keyword_match_padding rules text w c q :
  weights_nonneg rules ->
  w <> "" -> Str.has_space w = false ->
  (forall c' info kw,
     (c', info) ∈ categories rules -> kw ∈ keywords info ->
     Str.contains kw (Str.lower (text +:+ " " +:+ w))
     = Str.contains kw (Str.lower text)) ->
  keyword_match rules text = Ok (c, q) ->
  best_score rules (text +:+ " " +:+ w) = best_score rules text
  /\ word_count (text +:+ " " +:+ w) = S (word_count text)
  /\ exists q',
       keyword_match rules (text +:+ " " +:+ w) = Ok (c, q')
       /\ (q' <= q)%Q.
Proof.
  intros Hnn Hne Hsp Hsame Hk.
  pose proof (build_matches_ext (categories rules) (Str.lower text)
                (Str.lower (text +:+ " " +:+ w)) Hsame) as Hbm.
  pose proof (word_count_extend text w Hne Hsp) as Hwc.
  pose proof (best_score_nonneg rules text Hnn) as Hs.
  split; [unfold best_score; by rewrite Hbm|]. split; [exact Hwc|].
  apply keyword_match_inv in Hk
    as [(E & -> & ->)|(m & ms & E & Hpos & -> & ->)].
  - exists 0%Q. unfold keyword_match. rewrite Hbm, E.
    split; [done|]. apply Qle_refl.
  - unfold best_score in *. rewrite E in *.
    set (s := snd (py_max m ms)) in *.
    exists (s / inject_Z (Z.of_nat (S (word_count text))))%Q.
    pose proof (inject_nat_pos _ Hpos) as Hn.
    assert (0 < inject_Z (Z.of_nat (S (word_count text))))%Q as Hn'
      by (apply inject_nat_pos; lia).
    assert (inject_Z (Z.of_nat (S (word_count text)))
            == inject_Z (Z.of_nat (word_count text)) + 1)%Q as Hsucc.
    { rewrite Nat2Z.inj_succ, <- Z.add_1_r, inject_Z_plus. reflexivity. }
    set (n := inject_Z (Z.of_nat (word_count text))) in *.
    set (n' := inject_Z (Z.of_nat (S (word_count text)))) in *.
    split.
    + unfold keyword_match. rewrite Hbm, Hwc. done.
    + apply Qle_shift_div_r; [done|].
      setoid_replace (s / n * n')%Q with (s + s / n)%Q using relation Qeq.
      * rewrite <- (Qplus_0_r s) at 1.
        apply Qplus_le_compat; [apply Qle_refl|].
        apply Qle_shift_div_l; [done|]. by rewrite Qmult_0_l.
      * rewrite Hsucc. field. intros H0. rewrite H0 in Hn.
        by apply Qlt_irrefl in Hn.
Qed.

Lemma keyword_match_padding_witness :
  word_count ("cvs pharmacy" +:+ " " +:+ "pickup") = 3%nat
  /\ exists q',
       keyword_match example_rules ("cvs pharmacy" +:+ " " +:+ "pickup")
       = Ok ("Healthcare", q')
       /\ (q' <= (3 # 2) / 2)%Q.
Proof.
  assert (weights_nonneg example_rules) as Hnn
    by (apply nonneg_b_spec; reflexivity).
  destruct (keyword_match_padding example_rules "cvs pharmacy" "pickup"
              "Healthcare" ((3 # 2) / 2)%Q Hnn)
    as (_ & Hwc & q' & Hk & Hle).
  - discriminate.
  - reflexivity.
  - intros c' info kw Hc Hkw.
    repeat (apply elem_of_cons in Hc as [Hc|Hc];
            [injection Hc as -> ->;
             repeat (apply elem_of_cons in Hkw as [->|Hkw]; [reflexivity|]);
             by apply not_elem_of_nil in Hkw|]).
    by apply not_elem_of_nil in Hc.
  - reflexivity.
  - split; [exact Hwc|]. exists q'. split; [exact Hk | exact Hle].
Defined.

Lemma length_filter_all {A} (P : A -> Prop) `{!forall x, Decision (P x)}
    (l : list A) :
  length (filter P l) = length l <-> Forall P l.
Proof.
  induction l as [|x l IH]; [done|]. rewrite filter_cons.
  pose proof (length_filter P l). destruct (decide (P x)); simpl.
  - rewrite Forall_cons. split.
    + intros [= H1]. split; [done|by apply IH].
    + intros [_ H1]. f_equal. by apply IH.
  - split; [lia|]. by intros [? _]%Forall_cons.
Qed.

(** X22. The coverage the drivers log, the share of rows whose category is
    not "Unknown", is defined for every frame with a row and lies between
    0 and 1; it is 1 exactly when no row is "Unknown". *)
Theorem coverage_bounds (rows : list Row) :
  rows <> [] ->
  exists q,
    coverage rows = Ok q
    /\ (0 <= q)%Q /\ (q <= 1)%Q
    /\ ((q == 1)%Q <-> Forall (fun r => category r <> "Unknown") rows).
Proof.
  intros Hne.
  set (k := length (filter (fun c => c <> "Unknown") (map category rows))).
  exists (inject_Z (Z.of_nat k) / inject_Z (Z.of_nat (length rows)))%Q.
  split; [by destruct rows|].
  assert (k <= length rows)%nat as Hk.
  { unfold k. etrans; [apply length_filter|]. by rewrite length_map. }
  assert (0 < inject_Z (Z.of_nat (length rows)))%Q as Hn
    by (apply inject_nat_pos; destruct rows; [done|simpl; lia]).
  assert (~ inject_Z (Z.of_nat (length rows)) == 0)%Q as Hn0.
  { intros H0. rewrite H0 in Hn. by apply Qlt_irrefl in Hn. }
  assert (k = length rows
          <-> Forall (fun r => category r <> "Unknown") rows) as Hall.
  { unfold k. rewrite <- (length_map category rows).
    rewrite length_filter_all.
    change (map category rows) with (category <$> rows).
    by rewrite Forall_fmap. }
  split; [|split; [|split]].
  - apply Qle_shift_div_l; [done|]. rewrite Qmult_0_l.
    change 0%Q with (inject_Z 0). rewrite <- Zle_Qle. lia.
  - apply Qle_shift_div_r; [done|]. rewrite Qmult_1_l, <- Zle_Qle. lia.
  - intros H. apply Hall, Nat2Z.inj, inject_Z_injective.
    apply (Qmult_inj_r _ _ (/ inject_Z (Z.of_nat (length rows)))).
    + intros H0. apply Hn0. rewrite <- (Qinv_involutive (inject_Z _)), H0.
      reflexivity.
    + rewrite Qmult_inv_r by done. exact H.
  - intros H%Hall. rewrite H. by field.
Qed.

Lemma coverage_bounds_witness :
  exists q,
    coverage Double.classified_data = Ok q /\ (q == 3 # 4)%Q /\ (q <= 1)%Q.
Proof.
  destruct (coverage_bounds Double.classified_data) as (q & Hq & _ & Hle & _).
  - discriminate.
  - exists q. split; [exact Hq|]. split; [|exact Hle].
    vm_compute in Hq. injection Hq as <-. reflexivity.
Defined.

End MoreExtras.
